(** * pyfngrep: a shallow embedding of [pyfngrep.py] and its properties

    [pyfngrep.py] searches Python source files for a pattern and prints every
    matching line together with the function or [class.method] it occurs in.
    The scope is tracked by a line-oriented state machine, not by a parser.

    The embedding follows the source function by function:
    - Python [str] values are [string]s (a character is a code point below
      256), with the [str] methods the program calls written out;
    - [re], [open], [os.walk] and [Path.is_file] belong to Python's library;
      they are parameters of the development ([re_compile], [fs_lookup]);
    - printing, opening a file and raising an exception are the effects of
      the program: a computation returns the trace of its events and either a
      value or the exception that ended it. *)

From Stdlib Require Import String Ascii List Bool Arith Lia DecimalString.
Import ListNotations.
Open Scope string_scope.
Open Scope list_scope.

Set Implicit Arguments.

(** String concatenation, Python's [+] on [str]. *)
Infix "+++" := String.append (right associativity, at level 60).

(** ** Python [str] *)

Module Str.

(** The characters the source names explicitly. *)
Definition LF : ascii := "010"%char.
Definition SP : ascii := " "%char.
Definition LPAREN : ascii := "("%char.
Definition DQUOTE : ascii := "034"%char.

Definition chr (c : ascii) : string := String c EmptyString.

(** [str.isspace] on one character: the white space of [str.split()],
    [str.strip()] and [str.lstrip()] below code point 256. *)
Definition isspace (c : ascii) : bool :=
  let n := nat_of_ascii c in
  (((9 <=? n) && (n <=? 13)) || ((28 <=? n) && (n <=? 32))
   || (n =? 133) || (n =? 160))%nat.

Definition is_empty (s : string) : bool :=
  match s with EmptyString => true | String _ _ => false end.

(** [s.split()] : the maximal runs of non-blank characters, in order.
    [tok] is the run being read. *)
Fixpoint split_from (tok s : string) : list string :=
  match s with
  | EmptyString => if is_empty tok then [] else [tok]
  | String c r =>
      if isspace c
      then (if is_empty tok then split_from "" r else tok :: split_from "" r)
      else split_from (tok +++ chr c) r
  end.

Definition split (s : string) : list string := split_from "" s.

(** [s.split(sep)] for a one-character separator: never empty. *)
Fixpoint split_on_from (sep : ascii) (tok s : string) : list string :=
  match s with
  | EmptyString => [tok]
  | String c r =>
      if Ascii.eqb c sep
      then tok :: split_on_from sep "" r
      else split_on_from sep (tok +++ chr c) r
  end.

Definition split_on (sep : ascii) (s : string) : list string :=
  split_on_from sep "" s.

(** [s.lstrip(chars)] and [s.rstrip(chars)], the set [chars] given as a
    predicate. *)
Fixpoint lstrip_by (p : ascii -> bool) (s : string) : string :=
  match s with
  | EmptyString => EmptyString
  | String c r => if p c then lstrip_by p r else s
  end.

Fixpoint rstrip_by (p : ascii -> bool) (s : string) : string :=
  match s with
  | EmptyString => EmptyString
  | String c r =>
      let r' := rstrip_by p r in
      if is_empty r' && p c then EmptyString else String c r'
  end.

Definition strip_by (p : ascii -> bool) (s : string) : string :=
  rstrip_by p (lstrip_by p s).

(** [s.strip()], [s.lstrip()] and [s.strip('\n')]. *)
Definition strip (s : string) : string := strip_by isspace s.
Definition lstrip (s : string) : string := lstrip_by isspace s.
Definition strip_newlines (s : string) : string :=
  strip_by (fun c => Ascii.eqb c LF) s.

(** [s.startswith(t)] and [s.endswith(t)]. *)
Definition startswith (s t : string) : bool := String.prefix t s.

Fixpoint endswith (s t : string) : bool :=
  String.eqb s t
  || match s with
     | EmptyString => false
     | String _ r => endswith r t
     end.

(** The slice [s[n:]]. *)
Fixpoint slice_from (n : nat) (s : string) : string :=
  match n, s with
  | O, _ => s
  | S _, EmptyString => EmptyString
  | S k, String _ r => slice_from k r
  end.

(** [t in s]. *)
Fixpoint contains (s t : string) : bool :=
  String.prefix t s
  || match s with
     | EmptyString => false
     | String _ r => contains r t
     end.

(** Whether character [c] occurs in [s]. *)
Fixpoint has_char (c : ascii) (s : string) : bool :=
  match s with
  | EmptyString => false
  | String d r => Ascii.eqb d c || has_char c r
  end.

(** Whether every character of [s] satisfies [p]. *)
Fixpoint all_chars (p : ascii -> bool) (s : string) : bool :=
  match s with
  | EmptyString => true
  | String c r => p c && all_chars p r
  end.

(** [str(n)] for a non-negative [int]. *)
Definition of_nat (n : nat) : string := NilZero.string_of_uint (Nat.to_uint n).

(** [file.readlines()] on the text of a file: the lines, each with its
    line feed, the last one possibly without. *)
Fixpoint readlines_from (cur s : string) : list string :=
  match s with
  | EmptyString => if is_empty cur then [] else [cur]
  | String c r =>
      if Ascii.eqb c LF
      then (cur +++ chr c) :: readlines_from "" r
      else readlines_from (cur +++ chr c) r
  end.

Definition readlines (text : string) : list string := readlines_from "" text.

End Str.

(** ** Exceptions, events and computations *)

Inductive exn : Type :=
| NameError (name : string)
| IndexError
| ReError (pattern : string)
| FileNotFoundError (p : string)
| IsADirectoryError (p : string).

Inductive event : Type :=
| EvOpen (p : string)
| EvPrint (s : string).

Inductive result (A : Type) : Type :=
| Ok (a : A)
| Raise (e : exn).
Arguments Raise {A} e.

(** A computation: the events it performed, in order, and how it ended. *)
Definition M (A : Type) : Type := (list event * result A)%type.

Definition ret {A} (a : A) : M A := ([], Ok a).
Definition raise {A} (e : exn) : M A := ([], Raise e).
Definition emit (ev : event) : M unit := ([ev], Ok tt).

Definition bind {A B} (m : M A) (k : A -> M B) : M B :=
  match m with
  | (t, Ok a) => let '(t', r) := k a in (t ++ t', r)
  | (t, Raise e) => (t, Raise e)
  end.

Definition lift {A} (r : result A) : M A := ([], r).

Declare Scope py_scope.
Delimit Scope py_scope with py.
Notation "x <- m ;; k" := (bind m (fun x => k))
  (at level 61, m at next level, right associativity) : py_scope.
Notation "m ;;; k" := (bind m (fun _ => k))
  (at level 61, right associativity) : py_scope.
Open Scope py_scope.

Definition trace {A} (m : M A) : list event := fst m.
Definition outcome {A} (m : M A) : result A := snd m.

(** A [for] loop whose body updates a state and may raise. *)
Fixpoint for_each {A S} (body : S -> A -> M S) (s : S) (l : list A) : M S :=
  match l with
  | [] => ret s
  | a :: l' => s' <- body s a ;; for_each body s' l'
  end.

(** [l[i]], raising [IndexError] out of range. *)
Definition index {A} (l : list A) (i : nat) : result A :=
  match nth_error l i with
  | Some a => Ok a
  | None => Raise IndexError
  end.

(** ** [fn_or_class_name] *)

(** [s.split()[1].split('(')[0]] *)
Definition fn_or_class_name (s : string) : result string :=
  match index (Str.split s) 1 with
  | Ok tok => index (Str.split_on Str.LPAREN tok) 0
  | Raise e => Raise e
  end.

(** ** The library: [re] and the file system *)

(** [re]: compiling [pattern] under the flag [re.IGNORECASE] or none gives
    [None] when the pattern is malformed ([re.error]) and otherwise the
    search of the compiled pattern: whether it matches somewhere in a
    string. Whether a pattern compiles does not depend on the string. *)
Class Regex : Type :=
  { re_compile : string -> bool -> option (string -> bool) }.

#[local] Set Warnings "-register-all".

(** What a path names: a file with its text (as [open(p)] in text mode
    delivers it) or a directory with its entries in the order the system
    lists them. [os.walk] counts every entry that is not a directory as a
    file. *)
Inductive node : Type :=
| File (text : string)
| Dir (entries : list (string * node)).

Class FileSystem : Type :=
  { fs_lookup : string -> option node }.

(** The module-level names [pyfngrep] reads that it does not define itself:
    [path] is bound only by the [__main__] block. *)
Record globals : Type := { g_path : option string }.

(** The per-file state of [_pyfngrep]. *)
Record scope : Type :=
  { curcls : option string; curfn : option string; lineno : nat }.

(** [curcls, curfn, lineno = None, None, 0] *)
Definition scope0 : scope :=
  {| curcls := None; curfn := None; lineno := 0 |}.

(** The truth value of an optional [str]: [None] and [''] are false. *)
Definition truthy (o : option string) : bool :=
  match o with
  | Some s => negb (Str.is_empty s)
  | None => false
  end.

(** How an f-string renders an optional [str]. *)
Definition fmt (o : option string) : string :=
  match o with
  | Some s => s
  | None => "None"
  end.

(** [re.match(r'^ +def ', line)]: one space or more, then [def ] . *)
Definition re_match_indented_def (line : string) : bool :=
  match line with
  | String c r =>
      Ascii.eqb c Str.SP
      && Str.startswith (Str.lstrip_by (fun d => Ascii.eqb d Str.SP) r) "def "
  | EmptyString => false
  end.

(** [os.path.join(a, b)] (POSIX). *)
Definition path_join (a b : string) : string :=
  if Str.startswith b "/" then b
  else if Str.is_empty a || Str.endswith a "/" then a +++ b
  else a +++ "/" +++ b.

(** The triples [(root, dirs, files)] of [os.walk(top)], top-down, when
    [top] names [n]: the directory itself first, then its subdirectories in
    order. Nothing is produced for a [top] that is not a directory. *)
Fixpoint walk (top : string) (n : node)
  : list (string * list string * list string) :=
  match n with
  | File _ => []
  | Dir entries =>
      let dirs :=
        flat_map (fun e => match snd e with Dir _ => [fst e] | File _ => [] end)
                 entries in
      let files :=
        flat_map (fun e => match snd e with Dir _ => [] | File _ => [fst e] end)
                 entries in
      (top, dirs, files)
      :: flat_map (fun e => let '(name, sub) := e in
                            walk (path_join top name) sub) entries
  end.

Section Program.

Context {re : Regex} {os : FileSystem}.

(** [re.search(regex, line, flags=re_flags)] as a truth value. *)
Definition re_search (regex line : string) (ignore_case : bool) : result bool :=
  match re_compile regex ignore_case with
  | Some search => Ok (search line)
  | None => Raise (ReError regex)
  end.

(** [open(p).readlines()] *)
Definition open_readlines (p : string) : M (list string) :=
  match fs_lookup p with
  | Some (File text) => emit (EvOpen p) ;;; ret (Str.readlines text)
  | Some (Dir _) => raise (IsADirectoryError p)
  | None => raise (FileNotFoundError p)
  end.

(** [Path(p).is_file()] *)
Definition is_file (p : string) : bool :=
  match fs_lookup p with
  | Some (File _) => true
  | _ => false
  end.

(** [os.walk(p)]: nothing when [p] does not exist. *)
Definition os_walk (p : string) : list (string * list string * list string) :=
  match fs_lookup p with
  | Some n => walk p n
  | None => []
  end.

(** The test of the second [if]: whether [line] defines a function, at
    top level when no class is current, indented when one is. *)
Definition defines_function (curcls : option string) (line : string) : bool :=
  (negb (truthy curcls) && Str.startswith line "def ")
  || (truthy curcls && re_match_indented_def line).

(** The test of the third [if]: a blank line outside a class. *)
Definition resets_function (curcls : option string) (line : string) : bool :=
  negb (truthy curcls) && (String.length (Str.strip line) =? 0)%nat.

(** The two output formats. *)
Definition format_match (rel_p : string) (lineno : nat)
    (curcls curfn : option string) (relevant : string) : string :=
  if truthy curcls
  then rel_p +++ ":" +++ Str.of_nat lineno +++ ":"
       +++ fmt curcls +++ "." +++ fmt curfn +++ "(): " +++ relevant
  else rel_p +++ ":" +++ Str.of_nat lineno +++ ":"
       +++ fmt curfn +++ "(): " +++ relevant.

(** The body of the loop over the lines of one file. *)
Definition scan_line (regex rel_p : string) (ignore_case : bool)
    (st : scope) (line : string) : M scope :=
  let lineno := S (lineno st) in
  cf <- (if Str.startswith line "class "
         then name <- lift (fn_or_class_name line) ;; ret (Some name, None)
         else ret (curcls st, curfn st)) ;;
  let curcls := fst cf in
  curfn <- (if defines_function curcls line
            then name <- lift (fn_or_class_name line) ;; ret (Some name)
            else ret (snd cf)) ;;
  let curfn := if resets_function curcls line then None else curfn in
  found <- lift (re_search regex line ignore_case) ;;
  (if found
   then emit (EvPrint (format_match rel_p lineno curcls curfn
                                    (Str.lstrip line)))
   else ret tt) ;;;
  ret {| curcls := curcls; curfn := curfn; lineno := lineno |}.

(** The body of the loop over the paths. *)
Definition scan_path (regex base : string) (ignore_case : bool)
    (_ : unit) (p : string) : M unit :=
  let rel_p := Str.slice_from (String.length base) p in
  raw <- open_readlines p ;;
  let lines := map Str.strip_newlines raw in
  for_each (scan_line regex rel_p ignore_case) scope0 lines ;;;
  ret tt.

Definition _pyfngrep (regex : string) (paths : list string) (base : string)
    (ignore_case : bool) : M unit :=
  for_each (scan_path regex base ignore_case) tt paths.

(** [f.endswith('.py') or f.endswith('.pyi')] *)
Definition is_python_source (f : string) : bool :=
  Str.endswith f ".py" || Str.endswith f ".pyi".

Definition get_paths (p : string) : list string :=
  fold_left
    (fun ret rdf =>
       let '(root, _, files) := rdf in
       fold_left
         (fun ret f =>
            if is_python_source f then ret ++ [path_join root f] else ret)
         files ret)
    (os_walk p) [].

Definition pyfngrep (g : globals) (regex pathspec : string)
    (ignore_case : bool) : M unit :=
  match g_path g with
  | None => raise (NameError "path")
  | Some path =>
      if is_file path
      then _pyfngrep regex [pathspec] "" ignore_case
      else _pyfngrep regex (get_paths pathspec) pathspec ignore_case
  end.

(** The [__main__] block after argument parsing: it binds the global
    [path] to the path argument and calls [pyfngrep] with it. *)
Definition main (regex path : string) (ignore_case : bool) : M unit :=
  pyfngrep {| g_path := Some path |} regex path ignore_case.

End Program.

(** ** Vocabulary of the statements *)

(** The scope tracker on its own: the updates [scan_line] makes to the
    state of a file before it searches the line. *)
Definition track (st : scope) (line : string) : result scope :=
  match (if Str.startswith line "class "
         then match fn_or_class_name line with
              | Ok name => Ok (Some name, None)
              | Raise e => Raise e
              end
         else Ok (curcls st, curfn st)) with
  | Raise e => Raise e
  | Ok (cls, fn0) =>
      match (if defines_function cls line
             then match fn_or_class_name line with
                  | Ok name => Ok (Some name)
                  | Raise e => Raise e
                  end
             else Ok fn0) with
      | Raise e => Raise e
      | Ok fn1 =>
          Ok {| curcls := cls;
                curfn := if resets_function cls line then None else fn1;
                lineno := S (lineno st) |}
      end
  end.

(** The scope label of an output line, the part between the line number
    and [(): ]. *)
Definition scope_label (cls fn : option string) : string :=
  if truthy cls then fmt cls +++ "." +++ fmt fn else fmt fn.

(** The lines [_pyfngrep] works on: those of the file, without their line
    feeds. *)
Definition lines_of (text : string) : list string :=
  map Str.strip_newlines (Str.readlines text).

(** A line is blank when [line.strip()] is empty. *)
Definition blank (line : string) : Prop := Str.strip line = "".

(** A name a directory entry can have: not empty, without [/]. *)
Definition valid_name (name : string) : bool :=
  negb (Str.is_empty name) && negb (Str.has_char "/" name).

Fixpoint distinct (l : list string) : bool :=
  match l with
  | [] => true
  | x :: l' => negb (existsb (String.eqb x) l') && distinct l'
  end.

(** A tree as a file system holds it: in every directory the entries have
    valid names, no two of them the same. *)
Fixpoint well_formed (n : node) : bool :=
  match n with
  | File _ => true
  | Dir entries =>
      distinct (map fst entries)
      && forallb (fun e => let '(name, sub) := e in
                           valid_name name && well_formed sub) entries
  end.

(** [file_under top n path name]: when [top] names the directory [n], the
    file called [name] lies in it or below it, and [path] is the path
    [os.path.join] builds for it on the way down from [top]. *)
Inductive file_under : string -> node -> string -> string -> Prop :=
| file_here top entries name text :
    In (name, File text) entries ->
    file_under top (Dir entries) (path_join top name) name
| file_below top entries d sub path name :
    In (d, sub) entries ->
    file_under (path_join top d) sub path name ->
    file_under top (Dir entries) path name.

(** The paths [get_paths] collects for the files that are entries of the
    directory [top] itself. *)
Definition listing_here (top : string) (entries : list (string * node))
  : list string :=
  flat_map (fun e => match snd e with
                     | File _ =>
                         if is_python_source (fst e)
                         then [path_join top (fst e)] else []
                     | Dir _ => []
                     end) entries.

(** The paths [get_paths] collects below [top], by recursion on the tree. *)
Fixpoint listing (top : string) (n : node) : list string :=
  match n with
  | File _ => []
  | Dir entries =>
      listing_here top entries
      ++ flat_map (fun e => let '(name, sub) := e in
                            listing (path_join top name) sub) entries
  end.

(** What one triple of [os.walk] adds to the result of [get_paths]. *)
Definition collect (rdf : string * list string * list string) : list string :=
  let '(root, _, files) := rdf in
  map (path_join root) (filter is_python_source files).

(** [top] as the prefix of the paths below it: what [os.path.join] puts
    before the name of an entry. *)
Definition dir_prefix (top : string) : string :=
  if Str.is_empty top || Str.endswith top "/" then top else top +++ "/".

(** An output line: path, line number, scope label and the text of the
    line without its indentation. *)
Definition output_line (rel_p : string) (n : nat) (label line : string)
  : string :=
  rel_p +++ ":" +++ Str.of_nat n +++ ":" +++ label +++ "(): "
  +++ Str.lstrip line.

(** The lines of a file with their numbers, counted from [n]. *)
Definition numbered (n : nat) (lines : list string) : list (nat * string) :=
  combine (seq n (length lines)) lines.

(** The files a computation opened, in order. *)
Definition opened (t : list event) : list string :=
  flat_map (fun ev => match ev with EvOpen p => [p] | EvPrint _ => [] end) t.

(** ** A reference library, to run the program on concrete inputs *)

Module Ref.

(** Lower case of a character below code point 256: [A-Z] and the
    capital letters of Latin-1. *)
Definition lower (c : ascii) : ascii :=
  let n := nat_of_ascii c in
  if (((65 <=? n) && (n <=? 90))
      || ((192 <=? n) && (n <=? 222) && negb (n =? 215)))%nat
  then ascii_of_nat (n + 32) else c.

Fixpoint lower_str (s : string) : string :=
  match s with
  | EmptyString => EmptyString
  | String c r => String (lower c) (lower_str r)
  end.

(** The characters with a meaning of their own in a pattern. *)
Definition special (c : ascii) : bool := Str.has_char c ".^$*+?{}[]\|()".

Fixpoint literal (pattern : string) : bool :=
  match pattern with
  | EmptyString => true
  | String c r => negb (special c) && literal r
  end.

(** [re] on its literal fragment: a pattern without special characters is
    searched for as a substring, letters compared in lower case under
    [re.IGNORECASE]. A pattern with a special character is outside the
    fragment and is answered [re.error], which is Python's answer for the
    unbalanced parenthesis used as the malformed pattern below. *)
Definition re_literal : Regex :=
  {| re_compile pattern ignore_case :=
       if literal pattern
       then Some (fun s =>
                    if ignore_case
                    then Str.contains (lower_str s) (lower_str pattern)
                    else Str.contains s pattern)
       else None |}.

(** A file system given by the list of the paths that exist. *)
Fixpoint lookup (l : list (string * node)) (p : string) : option node :=
  match l with
  | [] => None
  | (q, n) :: l' => if String.eqb p q then Some n else lookup l' p
  end.

Definition fs_of (l : list (string * node)) : FileSystem :=
  {| fs_lookup := lookup l |}.

(** The text of a file from its lines, each ended by a line feed. *)
Fixpoint unlines (ls : list string) : string :=
  match ls with
  | [] => EmptyString
  | l :: ls' => l +++ Str.chr Str.LF +++ unlines ls'
  end.

(** The file of the end-to-end example. *)
Definition foo_lines : list string :=
  [ "class Foo:";
    "    def bar(self):";
    "        x = " +++ Str.chr Str.DQUOTE +++ "needle" +++ Str.chr Str.DQUOTE ].

Definition foo_py : string := unlines foo_lines.

(** A file whose second line is a class line without a name. *)
Definition bad_py : string := unlines ["needle one"; "class "; "needle two"].

(** Files whose class line gives the empty name: the second token starts
    with the parenthesis. *)
Definition odd_py : string := unlines ["class (:"; "needle"].
Definition odd_lines : list string := ["class (:"; "def f():"].

(** A source tree. *)
Definition src_tree : list (string * node) :=
  [ ("a.py", File (unlines ["import b"]));
    ("b.pyi", File "");
    ("c.txt", File (unlines ["needle"]));
    ("pkg", Dir [ ("d.py", File (unlines ["needle"]));
                  ("notes.md", File "") ]) ].

(** The paths below [top] when it names [n], each with what it names. *)
Fixpoint flatten (top : string) (n : node) : list (string * node) :=
  (top, n)
  :: match n with
     | File _ => []
     | Dir entries =>
         flat_map (fun e => let '(name, sub) := e in
                            flatten (path_join top name) sub) entries
     end.

(** The files of the examples. *)
Definition world : FileSystem :=
  fs_of ([ ("foo.py", File foo_py);
           ("empty.py", File "");
           ("a.py", File (unlines ["x = 1"]));
           ("bad.py", File bad_py);
           ("odd.py", File odd_py) ]
         ++ flatten "src" (Dir src_tree)
         ++ flatten "/x/y" (Dir [("z.py", File (unlines ["needle"]))])).

End Ref.


(** * Properties *)

(** ** Strings *)

Lemma append_nil_r (s : string) : s +++ "" = s.
Proof. induction s as [|c s IH]; simpl; [reflexivity | now rewrite IH]. Qed.

Lemma append_assoc (a b c : string) : (a +++ b) +++ c = a +++ b +++ c.
Proof. induction a as [|x a IH]; simpl; [reflexivity | now rewrite IH]. Qed.

Lemma append_snoc (a : string) (c : ascii) (b : string) :
  (a +++ Str.chr c) +++ b = a +++ String c b.
Proof. now rewrite append_assoc. Qed.

Lemma append_inv_head (a b c : string) : a +++ b = a +++ c -> b = c.
Proof.
  induction a as [|x a IH]; simpl; intros H; [exact H|].
  injection H as H. now apply IH.
Qed.

Lemma is_empty_true (s : string) : Str.is_empty s = true <-> s = "".
Proof. destruct s; simpl; split; congruence. Qed.

Lemma has_char_append (c : ascii) (a b : string) :
  Str.has_char c (a +++ b) = Str.has_char c a || Str.has_char c b.
Proof.
  induction a as [|x a IH]; simpl; [reflexivity|].
  now rewrite IH, orb_assoc.
Qed.

(** *** The [str] methods against their description *)

Example split_example :
  Str.split "  def   foo(a,  b):  " = ["def"; "foo(a,"; "b):"].
Proof. reflexivity. Qed.

Example split_on_example :
  Str.split_on Str.LPAREN "foo(a,(b))" = ["foo"; "a,"; "b))"].
Proof. reflexivity. Qed.

Example strip_example : Str.strip "  a b  " = "a b".
Proof. reflexivity. Qed.

Example readlines_example :
  Str.readlines ("a" +++ Str.chr Str.LF +++ Str.chr Str.LF +++ "b")
  = ["a" +++ Str.chr Str.LF; Str.chr Str.LF; "b"].
Proof. reflexivity. Qed.

Lemma all_chars_append (p : ascii -> bool) (a b : string) :
  Str.all_chars p (a +++ b) = Str.all_chars p a && Str.all_chars p b.
Proof.
  induction a as [|c a IH]; cbn; [reflexivity|].
  now rewrite IH, andb_assoc.
Qed.

(** The tokens of [s.split()] are not empty and hold no white space. *)
Lemma split_from_tokens (s tok : string) :
  Str.all_chars (fun c => negb (Str.isspace c)) tok = true ->
  Forall (fun t => t <> ""
                   /\ Str.all_chars (fun c => negb (Str.isspace c)) t = true)
         (Str.split_from tok s).
Proof.
  revert tok. induction s as [|c s IH]; intros tok Htok; cbn.
  - destruct tok; cbn; constructor; [|constructor].
    split; [discriminate | exact Htok].
  - destruct (Str.isspace c) eqn:Hc.
    + destruct tok; cbn; [now apply IH|].
      constructor; [split; [discriminate | exact Htok] | now apply IH].
    + apply IH. rewrite all_chars_append, Htok. cbn. now rewrite Hc.
Qed.

Lemma split_tokens (s : string) :
  Forall (fun t => t <> ""
                   /\ Str.all_chars (fun c => negb (Str.isspace c)) t = true)
         (Str.split s).
Proof. now apply split_from_tokens. Qed.

(** [readlines] cuts the text into pieces without losing a character. *)
Lemma readlines_from_concat (s cur : string) :
  String.concat "" (Str.readlines_from cur s) = cur +++ s.
Proof.
  revert cur. induction s as [|c s IH]; intros cur; cbn [Str.readlines_from].
  - destruct cur; cbn; [reflexivity | now rewrite append_nil_r].
  - destruct (Ascii.eqb c Str.LF).
    + assert (Hc : forall x l, String.concat "" (x :: l)
                               = x +++ String.concat "" l).
      { intros x [|y l]; cbn; [now rewrite append_nil_r | reflexivity]. }
      rewrite Hc, IH. cbn. now rewrite append_snoc.
    + rewrite IH. now rewrite append_snoc.
Qed.

Lemma readlines_concat (text : string) :
  String.concat "" (Str.readlines text) = text.
Proof. apply readlines_from_concat. Qed.

(** Every piece ends at its first line feed: a line feed is the last
    character of a piece or does not occur in it. *)
Lemma readlines_from_pieces (s cur : string) :
  Str.has_char Str.LF cur = false ->
  Forall (fun l => Str.has_char Str.LF l = false
                   \/ exists body,
                        l = body +++ Str.chr Str.LF
                        /\ Str.has_char Str.LF body = false)
         (Str.readlines_from cur s).
Proof.
  revert cur. induction s as [|c s IH]; intros cur Hcur;
    cbn [Str.readlines_from].
  - destruct (Str.is_empty cur); constructor; [now left | constructor].
  - destruct (Ascii.eqb c Str.LF) eqn:Hc.
    + apply Ascii.eqb_eq in Hc. subst c. constructor.
      * right. now exists cur.
      * now apply IH.
    + apply IH. rewrite has_char_append, Hcur. cbn. now rewrite Hc.
Qed.

Lemma rstrip_by_snoc (p : ascii -> bool) (body : string) (c : ascii) :
  p c = true ->
  Str.rstrip_by p (body +++ Str.chr c) = Str.rstrip_by p body.
Proof.
  intros Hc. induction body as [|d body IH]; cbn.
  - now rewrite Hc.
  - now rewrite IH.
Qed.

Lemma strip_by_none (p : ascii -> bool) (s : string) :
  Str.all_chars (fun c => negb (p c)) s = true -> Str.strip_by p s = s.
Proof.
  intros H. unfold Str.strip_by.
  assert (Hl : Str.lstrip_by p s = s).
  { destruct s as [|c s]; [reflexivity|]. cbn in *.
    apply andb_prop in H as [Hc _]. apply negb_true_iff in Hc.
    now rewrite Hc. }
  rewrite Hl. induction s as [|c s IH]; [reflexivity|].
  cbn in *. apply andb_prop in H as [Hc Hs]. apply negb_true_iff in Hc.
  rewrite Hc, andb_false_r. f_equal. apply IH; [exact Hs|].
  destruct s as [|d s]; [reflexivity|]. cbn in *.
  apply andb_prop in Hs as [Hd _]. apply negb_true_iff in Hd.
  now rewrite Hd.
Qed.

Lemma has_char_all_chars (c : ascii) (s : string) :
  Str.has_char c s = false
  <-> Str.all_chars (fun d => negb (Ascii.eqb d c)) s = true.
Proof.
  induction s as [|d s IH]; cbn; [tauto|].
  rewrite orb_false_iff, andb_true_iff, negb_true_iff. tauto.
Qed.

(** The lines [_pyfngrep] works on are the pieces of the text without
    their line feed. *)
Lemma lines_of_pieces (text : string) :
  Forall2 (fun raw line =>
             Str.has_char Str.LF line = false
             /\ (raw = line \/ raw = line +++ Str.chr Str.LF))
          (Str.readlines text) (lines_of text).
Proof.
  unfold lines_of, Str.readlines.
  pose proof (readlines_from_pieces text "" eq_refl) as H.
  induction H as [|raw l Hraw _ IH]; cbn [map]; constructor; [|exact IH].
  unfold Str.strip_newlines.
  destruct Hraw as [Hno|(body & -> & Hno)].
  - rewrite strip_by_none; [auto | now apply has_char_all_chars].
  - assert (Hb : Str.strip_by (fun c => Ascii.eqb c Str.LF)
                   (body +++ Str.chr Str.LF) = body).
    { destruct body as [|d body]; [reflexivity|].
      apply has_char_all_chars in Hno.
      pose proof (strip_by_none (fun c => Ascii.eqb c Str.LF) _ Hno) as Hs.
      unfold Str.strip_by in *. cbn in Hno.
      apply andb_prop in Hno as [Hd _]. apply negb_true_iff in Hd.
      cbn [Str.lstrip_by String.append] in *. rewrite Hd in *.
      change (String d (body +++ Str.chr Str.LF))
        with (String d body +++ Str.chr Str.LF).
      now rewrite rstrip_by_snoc. }
    rewrite Hb. auto.
Qed.

(** [s.startswith(t)] and [t in s]. *)
Lemma startswith_spec (s t : string) :
  Str.startswith s t = true <-> exists rest, s = t +++ rest.
Proof.
  unfold Str.startswith. revert s.
  induction t as [|c t IH]; intros s; cbn [String.prefix String.append].
  - destruct s; split; eauto.
  - destruct s as [|d s]; [split; [discriminate | intros (rest & H); discriminate]|].
    cbn [String.prefix].
    destruct (ascii_dec c d) as [<-|Hne]; [rewrite IH|]; split.
    + intros (rest & ->). now exists rest.
    + intros (rest & H). injection H as ->. now exists rest.
    + discriminate.
    + intros (rest & H). injection H as -> _. congruence.
Qed.

Lemma contains_spec (s t : string) :
  Str.contains s t = true <-> exists before rest, s = before +++ t +++ rest.
Proof.
  induction s as [|c s IH]; cbn [Str.contains];
    rewrite orb_true_iff; fold (Str.startswith "" t);
    try fold (Str.startswith (String c s) t); rewrite startswith_spec.
  - split.
    + intros [(rest & H)|H]; [|discriminate]. now exists "", rest.
    + intros ([|d before] & rest & H); [|discriminate].
      left. now exists rest.
  - rewrite IH. split.
    + intros [(rest & H)|(before & rest & ->)].
      * now exists "", rest.
      * now exists (String c before), rest.
    + intros ([|d before] & rest & H).
      * left. now exists rest.
      * right. injection H as _ ->. now exists before, rest.
Qed.

(** The slice [p[len(base):]] removes [base] from a path that starts
    with it. *)
Lemma slice_from_append (base rel : string) :
  Str.slice_from (String.length base) (base +++ rel) = rel.
Proof. induction base as [|c base IH]; cbn; [now destruct rel | exact IH]. Qed.

Lemma lstrip_by_append (p : ascii -> bool) (ws s : string) :
  Str.all_chars p ws = true ->
  Str.lstrip_by p (ws +++ s) = Str.lstrip_by p s.
Proof.
  induction ws as [|c ws IH]; cbn; [reflexivity|].
  intros H. apply andb_prop in H as [-> H]. now apply IH.
Qed.

Lemma lstrip_by_split (p : ascii -> bool) (s : string) :
  exists ws, s = ws +++ Str.lstrip_by p s /\ Str.all_chars p ws = true.
Proof.
  induction s as [|c s (ws & IH & Hws)]; cbn; [now exists ""|].
  destruct (p c) eqn:Hc; [|now exists ""].
  exists (String c ws). cbn. rewrite Hc, Hws. split; [|reflexivity].
  now rewrite <- IH.
Qed.

(** The constant pattern of the program, [^ +def ] matched at the start of
    the line: an indentation of one space or more, then [def ]. *)
Lemma re_match_indented_def_spec (line : string) :
  re_match_indented_def line = true
  <-> exists indent rest,
        line = indent +++ "def " +++ rest
        /\ indent <> ""
        /\ Str.all_chars (fun c => Ascii.eqb c Str.SP) indent = true.
Proof.
  unfold re_match_indented_def. split.
  - destruct line as [|c r]; [discriminate|].
    intros H. apply andb_prop in H as [Hc H].
    apply startswith_spec in H as (rest & H).
    destruct (lstrip_by_split (fun d => Ascii.eqb d Str.SP) r)
      as (ws & Hr & Hws).
    exists (String c ws), rest. split; [|split].
    + change (String c ws +++ "def " +++ rest)
        with (String c (ws +++ "def " +++ rest)).
      f_equal. now rewrite <- H.
    + discriminate.
    + cbn [Str.all_chars]. now rewrite Hc, Hws.
  - intros ([|c indent] & rest & -> & Hne & Hall); [congruence|].
    cbn in Hall. apply andb_prop in Hall as [Hc Hall].
    change (String c indent +++ "def " +++ rest)
      with (String c (indent +++ "def " +++ rest)).
    cbn iota. rewrite Hc, lstrip_by_append by exact Hall.
    cbn [andb]. apply startswith_spec. now exists rest.
Qed.

(** ** Computations *)

Lemma bind_ret_l {A B} (a : A) (k : A -> M B) : bind (ret a) k = k a.
Proof. unfold bind, ret. now destruct (k a). Qed.

Lemma bind_raise {A B} (t : list event) (e : exn) (k : A -> M B) :
  bind (t, Raise e) k = (t, Raise e).
Proof. reflexivity. Qed.

Lemma bind_ok {A B} (t : list event) (a : A) (k : A -> M B) :
  bind (t, Ok a) k = (t ++ fst (k a), snd (k a)).
Proof. unfold bind. now destruct (k a). Qed.

Lemma bind_assoc {A B C} (m : M A) (k : A -> M B) (h : B -> M C) :
  bind (bind m k) h = bind m (fun a => bind (k a) h).
Proof.
  destruct m as [t [a|e]]; [|reflexivity].
  unfold bind. destruct (k a) as [t1 [b|e1]]; [|reflexivity].
  destruct (h b) as [t2 r]. now rewrite app_assoc.
Qed.

Lemma bind_ext {A B} (m : M A) (k k' : A -> M B) :
  (forall a, k a = k' a) -> bind m k = bind m k'.
Proof.
  intros H. destruct m as [t [a|e]]; [|reflexivity].
  unfold bind. now rewrite H.
Qed.

(** A loop over [l1 ++ l2] is the loop over [l1] followed by the loop over
    [l2] from the state the first one reached. *)
Lemma for_each_app {A S} (body : S -> A -> M S) (l1 l2 : list A) (s : S) :
  for_each body s (l1 ++ l2)
  = bind (for_each body s l1) (fun s' => for_each body s' l2).
Proof.
  revert s. induction l1 as [|a l1 IH]; intros s; cbn [for_each app].
  - now rewrite bind_ret_l.
  - rewrite bind_assoc. apply bind_ext. intros s'. apply IH.
Qed.

(** A loop stops at the first element whose body raises. *)
Lemma for_each_raise {A S} (body : S -> A -> M S) (pre post : list A)
    (a : A) (s s1 : S) (t t1 : list event) (e : exn) :
  for_each body s pre = (t, Ok s1) ->
  body s1 a = (t1, Raise e) ->
  for_each body s (pre ++ a :: post) = (t ++ t1, Raise e).
Proof.
  intros Hpre Ha. rewrite for_each_app, Hpre, bind_ok.
  cbn [for_each]. rewrite Ha. reflexivity.
Qed.

(** ** Name extraction *)

(** The first piece of [tok.split(sep)] is [tok] up to its first [sep],
    and all of [tok] when [sep] does not occur in it. *)
Lemma split_on_from_head (sep : ascii) (s tok : string) :
  exists h tl,
    Str.split_on_from sep tok s = h :: tl
    /\ ((Str.has_char sep s = false /\ h = tok +++ s)
        \/ (exists pre rest,
               s = pre +++ String sep rest
               /\ Str.has_char sep pre = false /\ h = tok +++ pre)).
Proof.
  revert tok. induction s as [|c s IH]; intros tok; cbn [Str.split_on_from].
  - exists tok, []. split; [reflexivity|]. left. now rewrite append_nil_r.
  - destruct (Ascii.eqb_spec c sep) as [->|Hne].
    + eexists _, _. split; [reflexivity|]. right.
      exists "", s. cbn. now rewrite append_nil_r.
    + destruct (IH (tok +++ Str.chr c)) as (h & tl & Heq & Hh).
      exists h, tl. split; [exact Heq|].
      assert (Hc : Ascii.eqb c sep = false) by now apply Ascii.eqb_neq.
      destruct Hh as [[Hno ->]|(pre & rest & -> & Hno & ->)].
      * left. cbn. rewrite Hc, Hno. now rewrite append_snoc.
      * right. exists (String c pre), rest. cbn. rewrite Hc, Hno.
        now rewrite append_snoc.
Qed.

(** The name taken from a line is the second token up to its first
    opening parenthesis. *)
Lemma fn_or_class_name_split (s t0 t1 : string) (ts : list string) :
  Str.split s = t0 :: t1 :: ts ->
  exists name,
    fn_or_class_name s = Ok name
    /\ ((Str.has_char Str.LPAREN t1 = false /\ name = t1)
        \/ (exists rest,
               t1 = name +++ String Str.LPAREN rest
               /\ Str.has_char Str.LPAREN name = false)).
Proof.
  intros Hs. unfold fn_or_class_name, index. rewrite Hs. cbn [nth_error].
  unfold Str.split_on.
  destruct (split_on_from_head Str.LPAREN t1 "") as (h & tl & -> & Hh).
  exists h. split; [reflexivity|].
  destruct Hh as [[Hno ->]|(pre & rest & -> & Hno & ->)].
  - left. now split.
  - right. exists rest. now split.
Qed.

(** C5: on a line with at least two tokens the extracted name is the
    second token cut at its first opening parenthesis, and the whole second
    token (a trailing colon included) when it has no parenthesis. *)
Theorem fn_or_class_name_second_token (s t0 t1 : string) (ts : list string) :
  Str.split s = t0 :: t1 :: ts ->
  exists name,
    fn_or_class_name s = Ok name
    /\ ((Str.has_char Str.LPAREN t1 = false /\ name = t1)
        \/ (exists rest,
               t1 = name +++ String Str.LPAREN rest
               /\ Str.has_char Str.LPAREN name = false)).
Proof. apply fn_or_class_name_split. Qed.

Lemma fn_or_class_name_second_token_witness :
  Str.split "class Foo(Base):" = ["class"; "Foo(Base):"]
  /\ exists name,
    fn_or_class_name "class Foo(Base):" = Ok name
    /\ ((Str.has_char Str.LPAREN "Foo(Base):" = false /\ name = "Foo(Base):")
        \/ (exists rest,
               "Foo(Base):" = name +++ String Str.LPAREN rest
               /\ Str.has_char Str.LPAREN name = false)).
Proof.
  split; [reflexivity|].
  apply (@fn_or_class_name_second_token "class Foo(Base):" "class"
           "Foo(Base):" []).
  reflexivity.
Defined.

(** The two cases of C5 on the lines of the end-to-end example. *)
Example fn_or_class_name_class_colon : fn_or_class_name "class Foo:" = Ok "Foo:".
Proof. reflexivity. Qed.

Example fn_or_class_name_method :
  fn_or_class_name "    def bar(self):" = Ok "bar".
Proof. reflexivity. Qed.

(** With fewer than two tokens there is no second token to take. *)
Lemma fn_or_class_name_index_error (s : string) :
  length (Str.split s) < 2 -> fn_or_class_name s = Raise IndexError.
Proof.
  intros H. unfold fn_or_class_name, index.
  destruct (Str.split s) as [|t0 [|t1 ts]]; cbn in *; try reflexivity; lia.
Qed.

(** ** The scan of one line *)

Section ScanLine.

Context {re : Regex} {os : FileSystem}.
Variables (regex rel_p : string) (ignore_case : bool).

(** [scan_line] is the scope tracker followed by the search; the line is
    printed with the scope the tracker has just computed. *)
Lemma scan_line_track (st : scope) (line : string) :
  scan_line regex rel_p ignore_case st line
  = match track st line with
    | Raise e => ([], Raise e)
    | Ok st' =>
        match re_search regex line ignore_case with
        | Raise e => ([], Raise e)
        | Ok found =>
            (if found
             then [EvPrint (format_match rel_p (lineno st') (curcls st')
                              (curfn st') (Str.lstrip line))]
             else [],
             Ok st')
        end
    end.
Proof.
  unfold scan_line, track.
  destruct (Str.startswith line "class ");
    [destruct (fn_or_class_name line) as [x|e]; [|reflexivity]|];
    cbn [lift bind ret fst snd app].
  - destruct (defines_function (Some x) line);
      cbn [lift bind ret fst snd app];
      (destruct (re_search regex line ignore_case) as [[|]|e]; reflexivity).
  - destruct (defines_function (curcls st) line);
      [destruct (fn_or_class_name line) as [y|e]; [|reflexivity]|];
      cbn [lift bind ret fst snd app];
      (destruct (re_search regex line ignore_case) as [[|]|e]; reflexivity).
Qed.

(** The tracker counts every line it accepts. *)
Lemma track_lineno (st st' : scope) (line : string) :
  track st line = Ok st' -> lineno st' = S (lineno st).
Proof.
  unfold track. intros H.
  repeat match type of H with
         | context [match ?x with _ => _ end] => destruct x
         end; try discriminate; now inversion H.
Qed.

(** What one line can print: nothing, or the line itself found by the
    search, under the number and the scope the tracker computed. *)
Lemma scan_line_trace (st : scope) (line : string) (ev : event) :
  In ev (trace (scan_line regex rel_p ignore_case st line)) ->
  exists st',
    track st line = Ok st'
    /\ re_search regex line ignore_case = Ok true
    /\ ev = EvPrint (format_match rel_p (S (lineno st)) (curcls st')
                       (curfn st') (Str.lstrip line)).
Proof.
  rewrite scan_line_track.
  destruct (track st line) as [st'|e] eqn:Ht; [|intros []].
  destruct (re_search regex line ignore_case) as [[|]|e]; cbn;
    [|intros []..].
  intros [<-|[]]. exists st'. rewrite (track_lineno _ _ Ht). auto.
Qed.

Lemma scan_line_ok (st st' : scope) (line : string) (t : list event) :
  scan_line regex rel_p ignore_case st line = (t, Ok st') ->
  track st line = Ok st'.
Proof.
  rewrite scan_line_track.
  destruct (track st line) as [st1|e]; [|discriminate].
  destruct (re_search regex line ignore_case) as [found|e]; [|discriminate].
  now inversion 1.
Qed.

End ScanLine.

(** ** The scan of a file and of a list of paths *)

Lemma in_trace_bind {A B} (m : M A) (k : A -> M B) (ev : event) :
  In ev (trace (bind m k)) ->
  In ev (trace m) \/ exists a, outcome m = Ok a /\ In ev (trace (k a)).
Proof.
  destruct m as [t [a|e]]; [|now left].
  rewrite bind_ok. cbn. rewrite in_app_iff.
  intros [H|H]; [now left | right; now exists a].
Qed.

Lemma format_match_label (rel_p : string) (n : nat) (cls fn : option string)
    (relevant : string) :
  format_match rel_p n cls fn relevant
  = rel_p +++ ":" +++ Str.of_nat n +++ ":" +++ scope_label cls fn
    +++ "(): " +++ relevant.
Proof.
  unfold format_match, scope_label.
  destruct (truthy cls); [|reflexivity].
  now rewrite !append_assoc.
Qed.

Section Scan.

Context {re : Regex} {os : FileSystem}.
Variables (regex base : string) (ignore_case : bool).

(** The scan of one path: the file is opened and read, then its lines are
    scanned from a fresh state. *)
Lemma scan_path_file (p text : string) :
  fs_lookup p = Some (File text) ->
  scan_path regex base ignore_case tt p
  = (EvOpen p
       :: trace (for_each
                   (scan_line regex (Str.slice_from (String.length base) p)
                      ignore_case) scope0 (lines_of text)),
     match outcome (for_each
                      (scan_line regex (Str.slice_from (String.length base) p)
                         ignore_case) scope0 (lines_of text)) with
     | Ok _ => Ok tt
     | Raise e => Raise e
     end).
Proof.
  intros Hp. unfold scan_path, open_readlines, lines_of. rewrite Hp.
  cbn [emit ret bind app].
  destruct (for_each _ scope0 _) as [t [st|e]]; cbn; now rewrite ?app_nil_r.
Qed.

Lemma scan_path_not_file (p : string) :
  is_file p = false ->
  exists e, scan_path regex base ignore_case tt p = ([], Raise e).
Proof.
  unfold is_file, scan_path, open_readlines.
  destruct (fs_lookup p) as [[text|entries]|]; [discriminate|..]; intros _;
    eexists; reflexivity.
Qed.

(** Every line printed while the lines of a file are scanned is a line of
    the file the search found, numbered by its position: the lines before
    it were scanned one by one and each was counted once. *)
Lemma scan_lines_trace (rel_p : string) (lines : list string) (st : scope)
    (ev : event) :
  In ev (trace (for_each (scan_line regex rel_p ignore_case) st lines)) ->
  exists i line t sti st',
    nth_error lines i = Some line
    /\ for_each (scan_line regex rel_p ignore_case) st (firstn i lines)
       = (t, Ok sti)
    /\ lineno sti = lineno st + i
    /\ track sti line = Ok st'
    /\ re_search regex line ignore_case = Ok true
    /\ ev = EvPrint (format_match rel_p (S (lineno st + i)) (curcls st')
                       (curfn st') (Str.lstrip line)).
Proof.
  revert st. induction lines as [|a lines IH]; intros st; cbn [for_each].
  - intros [].
  - intros H. apply in_trace_bind in H as [H|(s1 & Hs1 & H)].
    + apply scan_line_trace in H as (st' & Ht & Hre & ->).
      exists 0, a, [], st, st'. rewrite Nat.add_0_r. now repeat split.
    + destruct (scan_line regex rel_p ignore_case st a) as [t0 r] eqn:Ha.
      cbn in Hs1. subst r.
      pose proof (track_lineno _ _ (scan_line_ok _ _ _ _ _ Ha)) as Hn.
      apply IH in H as (i & line & t & sti & st' & Hi & Hpre & Hl & Ht & Hre & ->).
      exists (S i), line, (t0 ++ t), sti, st'.
      cbn [nth_error firstn for_each]. rewrite Ha, bind_ok, Hpre, Hn in *.
      cbn [fst snd]. rewrite Hl, Nat.add_succ_r. now repeat split.
Qed.

(** The counter of a file: after the scan of its first lines it holds
    their number. *)
Lemma scan_lines_lineno (rel_p : string) (lines : list string)
    (st st' : scope) (t : list event) :
  for_each (scan_line regex rel_p ignore_case) st lines = (t, Ok st') ->
  lineno st' = lineno st + length lines.
Proof.
  revert st t. induction lines as [|a lines IH]; intros st t; cbn [for_each].
  - rewrite Nat.add_0_r. now inversion 1.
  - destruct (scan_line regex rel_p ignore_case st a) as [t0 [s1|e]] eqn:Ha;
      [|discriminate].
    rewrite bind_ok.
    destruct (for_each _ s1 lines) as [t1 [s2|e]] eqn:Hrest; [|discriminate].
    cbn. intros H. injection H as _ <-.
    rewrite (IH _ _ Hrest), (track_lineno _ _ (scan_line_ok _ _ _ _ _ Ha)).
    cbn [length]. lia.
Qed.

End Scan.

Section Run.

Context {re : Regex} {os : FileSystem}.
Variables (regex base : string) (ignore_case : bool).

Lemma _pyfngrep_cons (p : string) (paths : list string) :
  _pyfngrep regex (p :: paths) base ignore_case
  = bind (scan_path regex base ignore_case tt p)
         (fun _ => _pyfngrep regex paths base ignore_case).
Proof. unfold _pyfngrep. cbn [for_each]. apply bind_ext. now intros []. Qed.

Lemma _pyfngrep_app (before after : list string) :
  _pyfngrep regex (before ++ after) base ignore_case
  = bind (_pyfngrep regex before base ignore_case)
         (fun _ => _pyfngrep regex after base ignore_case).
Proof.
  unfold _pyfngrep. rewrite for_each_app. apply bind_ext. now intros [].
Qed.

(** Every line a run prints is a line of one of its files, found by the
    search and printed under its path without the prefix, its number and
    its scope. *)
Lemma printed_line_of_run (paths : list string) (s : string) :
  In (EvPrint s) (trace (_pyfngrep regex paths base ignore_case)) ->
  exists p text i line t sti label,
    In p paths
    /\ fs_lookup p = Some (File text)
    /\ nth_error (lines_of text) i = Some line
    /\ for_each (scan_line regex (Str.slice_from (String.length base) p)
                   ignore_case) scope0 (firstn i (lines_of text))
       = (t, Ok sti)
    /\ lineno sti = i
    /\ re_search regex line ignore_case = Ok true
    /\ s = Str.slice_from (String.length base) p +++ ":"
           +++ Str.of_nat (S i) +++ ":" +++ label +++ "(): "
           +++ Str.lstrip line.
Proof.
  induction paths as [|p paths IH]; [intros []|].
  rewrite _pyfngrep_cons. intros H.
  apply in_trace_bind in H as [H|([] & _ & H)].
  - destruct (fs_lookup p) as [[text|entries]|] eqn:Hp.
    + rewrite (scan_path_file _ _ _ _ Hp) in H. cbn in H.
      destruct H as [H|H]; [discriminate|].
      apply scan_lines_trace
        in H as (i & line & t & sti & st' & Hi & Hpre & Hl & _ & Hre & Heq).
      injection Heq as ->. rewrite format_match_label.
      exists p, text, i, line, t, sti, (scope_label (curcls st') (curfn st')).
      cbn in Hl. repeat split; auto. now left.
    + unfold scan_path, open_readlines in H. rewrite Hp in H. destruct H.
    + unfold scan_path, open_readlines in H. rewrite Hp in H. destruct H.
  - destruct (IH H) as (q & text & i & line & t & sti & label & Hq & Hrest).
    exists q, text, i, line, t, sti, label. split; [now right | exact Hrest].
Qed.

(** C8: every match a run prints carries the 1-based position of the
    matched line among the lines of its own file, blank lines counted: the
    line at position [i] (from 0) of the file is printed with number
    [S i], and the counter, started afresh for the file, has counted
    exactly the [i] lines before it, one each. *)
Theorem reported_line_number (paths : list string) (s : string) :
  In (EvPrint s) (trace (_pyfngrep regex paths base ignore_case)) ->
  exists p text i line t sti label,
    In p paths
    /\ fs_lookup p = Some (File text)
    /\ nth_error (lines_of text) i = Some line
    /\ for_each (scan_line regex (Str.slice_from (String.length base) p)
                   ignore_case) scope0 (firstn i (lines_of text))
       = (t, Ok sti)
    /\ lineno sti = i
    /\ re_search regex line ignore_case = Ok true
    /\ s = Str.slice_from (String.length base) p +++ ":"
           +++ Str.of_nat (S i) +++ ":" +++ label +++ "(): "
           +++ Str.lstrip line.
Proof. apply printed_line_of_run. Qed.

(** *** Definition lines without a name *)

Lemma track_bad_definition (st : scope) (line : string) :
  Str.startswith line "class " = true
  \/ defines_function (curcls st) line = true ->
  length (Str.split line) < 2 ->
  track st line = Raise IndexError.
Proof.
  intros Hdef Hlen. unfold track.
  rewrite (fn_or_class_name_index_error _ Hlen).
  destruct (Str.startswith line "class "); [reflexivity|].
  destruct Hdef as [Hdef|Hdef]; [discriminate|]. now rewrite Hdef.
Qed.

(** C6: a line taken for a class or function definition that has fewer
    than two tokens makes name extraction raise [IndexError]; the run ends
    there with that error, having printed only what the lines before it
    produced: nothing of the rest of the file or of the paths after it is
    scanned. *)
Theorem bad_definition_aborts_run (before after : list string)
    (p text : string) (pre post : list string) (line : string)
    (t0 t1 : list event) (st : scope) :
  _pyfngrep regex before base ignore_case = (t0, Ok tt) ->
  fs_lookup p = Some (File text) ->
  lines_of text = pre ++ line :: post ->
  for_each (scan_line regex (Str.slice_from (String.length base) p)
              ignore_case) scope0 pre = (t1, Ok st) ->
  Str.startswith line "class " = true
  \/ defines_function (curcls st) line = true ->
  length (Str.split line) < 2 ->
  _pyfngrep regex (before ++ p :: after) base ignore_case
  = (t0 ++ EvOpen p :: t1, Raise IndexError).
Proof.
  intros Hbefore Hp Hlines Hpre Hdef Hlen.
  rewrite _pyfngrep_app, Hbefore, bind_ok, _pyfngrep_cons.
  rewrite (scan_path_file _ _ _ _ Hp), Hlines.
  assert (Hline : scan_line regex (Str.slice_from (String.length base) p)
                    ignore_case st line = ([], Raise IndexError)).
  { rewrite scan_line_track. now rewrite (track_bad_definition _ _ Hdef Hlen). }
  rewrite (for_each_raise _ _ post _ _ Hpre Hline).
  cbn. now rewrite app_nil_r.
Qed.

(** *** Malformed patterns *)

Lemma scan_line_malformed (rel_p : string) (st : scope) (line : string) :
  re_compile regex ignore_case = None ->
  scan_line regex rel_p ignore_case st line
  = ([], Raise match track st line with
               | Ok _ => ReError regex
               | Raise e => e
               end).
Proof.
  intros Hre. rewrite scan_line_track. unfold re_search. rewrite Hre.
  now destruct (track st line).
Qed.

Lemma scan_lines_malformed (rel_p : string) (st : scope) (lines : list string) :
  re_compile regex ignore_case = None ->
  trace (for_each (scan_line regex rel_p ignore_case) st lines) = [].
Proof.
  intros Hre. destruct lines as [|line lines]; [reflexivity|].
  cbn [for_each]. now rewrite (scan_line_malformed _ _ _ Hre).
Qed.

Lemma scan_empty_files (paths : list string) :
  Forall (fun p => fs_lookup p = Some (File "")) paths ->
  _pyfngrep regex paths base ignore_case = (map EvOpen paths, Ok tt).
Proof.
  induction 1 as [|p paths Hp _ IH]; [reflexivity|].
  rewrite _pyfngrep_cons, (scan_path_file _ _ _ _ Hp), IH. reflexivity.
Qed.

Lemma class_line_not_def (line : string) :
  Str.startswith line "class " = true ->
  Str.startswith line "def " = false /\ re_match_indented_def line = false.
Proof.
  destruct line as [|c r]; [discriminate|].
  unfold Str.startswith. cbn [String.prefix].
  destruct (ascii_dec "c" c) as [<-|]; [|discriminate].
  intros _. split; reflexivity.
Qed.

(** The tracker accepts the first line of a file unless it is a
    definition line without a name. *)
Lemma track_first_line (line : string) :
  (Str.startswith line "class " = true \/ Str.startswith line "def " = true ->
   2 <= length (Str.split line)) ->
  exists st, track scope0 line = Ok st.
Proof.
  intros Hlen. unfold track.
  destruct (Str.startswith line "class ") eqn:Hc.
  - destruct (Str.split line) as [|t0 [|t1 ts]] eqn:Hs;
      [specialize (Hlen (or_introl eq_refl)); cbn in Hlen; lia..|].
    destruct (fn_or_class_name_split _ Hs) as (name & -> & _).
    destruct (class_line_not_def _ Hc) as [Hd Hi].
    unfold defines_function. rewrite Hd, Hi, !andb_false_r. cbn [orb].
    eexists; reflexivity.
  - unfold defines_function. cbn [scope0 curcls curfn truthy negb andb orb].
    rewrite orb_false_r.
    destruct (Str.startswith line "def ") eqn:Hd; [|eexists; reflexivity].
    destruct (Str.split line) as [|t0 [|t1 ts]] eqn:Hs;
      [specialize (Hlen (or_intror eq_refl)); cbn in Hlen; lia..|].
    destruct (fn_or_class_name_split _ Hs) as (name & -> & _).
    eexists; reflexivity.
Qed.

(** C3, as the program has it: a malformed pattern never lets a match be
    printed, but it is compiled by the first search, not before the scan.
    The targets are opened and read in order; a run over empty files ends
    without an error; otherwise the error is raised at the first line of
    the first file that has one, after that file and the empty ones before
    it were opened (a first line that is a definition without a name
    raises its own error first). *)
Theorem malformed_pattern_raises_at_first_search :
  re_compile regex ignore_case = None ->
  (forall paths s,
      ~ In (EvPrint s) (trace (_pyfngrep regex paths base ignore_case)))
  /\ (forall paths,
         Forall (fun p => fs_lookup p = Some (File "")) paths ->
         _pyfngrep regex paths base ignore_case = (map EvOpen paths, Ok tt))
  /\ (forall empties p after text line rest,
         Forall (fun p => fs_lookup p = Some (File "")) empties ->
         fs_lookup p = Some (File text) ->
         lines_of text = line :: rest ->
         (Str.startswith line "class " = true
          \/ Str.startswith line "def " = true ->
          2 <= length (Str.split line)) ->
         _pyfngrep regex (empties ++ p :: after) base ignore_case
         = (map EvOpen empties ++ [EvOpen p], Raise (ReError regex))).
Proof.
  intros Hre. split; [|split].
  - intros paths s H. induction paths as [|p paths IH]; [exact H|].
    rewrite _pyfngrep_cons in H.
    apply in_trace_bind in H as [H|([] & _ & H)]; [|now apply IH].
    destruct (fs_lookup p) as [[text|entries]|] eqn:Hp.
    + rewrite (scan_path_file _ _ _ _ Hp) in H. cbn [trace fst] in H.
      fold (trace (for_each
                     (scan_line regex (Str.slice_from (String.length base) p)
                        ignore_case) scope0 (lines_of text))) in H.
      rewrite (scan_lines_malformed _ _ _ Hre) in H.
      destruct H as [H|[]]; discriminate.
    + unfold scan_path, open_readlines in H. rewrite Hp in H. destruct H.
    + unfold scan_path, open_readlines in H. rewrite Hp in H. destruct H.
  - apply scan_empty_files.
  - intros empties p after text line rest Hempty Hp Hlines Hlen.
    rewrite _pyfngrep_app, (scan_empty_files Hempty), bind_ok, _pyfngrep_cons.
    rewrite (scan_path_file _ _ _ _ Hp), Hlines. cbn [for_each].
    rewrite (scan_line_malformed _ _ _ Hre).
    destruct (track_first_line _ Hlen) as (st & ->). reflexivity.
Qed.

End Run.

(** ** The scope tracker *)

Lemma lstrip_by_empty (p : ascii -> bool) (s : string) :
  Str.lstrip_by p s = "" <-> Str.all_chars p s = true.
Proof.
  induction s as [|c s IH]; cbn; [tauto|].
  destruct (p c); cbn; [exact IH|]. split; discriminate.
Qed.

Lemma rstrip_by_empty (p : ascii -> bool) (s : string) :
  Str.rstrip_by p s = "" <-> Str.all_chars p s = true.
Proof.
  induction s as [|c s IH]; cbn; [tauto|].
  destruct (Str.rstrip_by p s) as [|d r]; cbn.
  - destruct (p c); cbn; [|split; discriminate].
    split; intros _; [now apply IH | reflexivity].
  - split; [discriminate|]. intros H. apply andb_prop in H as [_ H].
    now apply IH in H.
Qed.

Lemma all_chars_lstrip_by (p q : ascii -> bool) (s : string) :
  Str.all_chars p s = true -> Str.all_chars p (Str.lstrip_by q s) = true.
Proof.
  induction s as [|c s IH]; cbn; [auto|].
  intros H. destruct (q c); [|exact H].
  apply andb_prop in H as [_ H]. now apply IH.
Qed.

(** A blank line consists of white space only. *)
Lemma blank_all_space (line : string) :
  blank line <-> Str.all_chars Str.isspace line = true.
Proof.
  unfold blank, Str.strip, Str.strip_by. rewrite rstrip_by_empty. split.
  - intros H. apply lstrip_by_empty.
    destruct (Str.lstrip_by Str.isspace line) as [|c r] eqn:Hl; [reflexivity|].
    exfalso. cbn in H. apply andb_prop in H as [Hc _].
    clear -Hl Hc. induction line as [|d line IH]; [discriminate|].
    cbn in Hl. destruct (Str.isspace d) eqn:Hd; [auto|].
    injection Hl as -> ->. congruence.
  - intros H. now apply all_chars_lstrip_by.
Qed.

(** A blank line is no definition line, whatever the current class. *)
Lemma blank_not_definition (line : string) (cls : option string) :
  blank line ->
  Str.startswith line "class " = false /\ defines_function cls line = false.
Proof.
  intros H. apply blank_all_space in H. unfold defines_function.
  destruct line as [|c r]; [now destruct (truthy cls)|].
  cbn in H. apply andb_prop in H as [Hc Hr].
  unfold re_match_indented_def, Str.startswith. cbn [String.prefix].
  destruct (ascii_dec "c" c) as [<-|_]; [discriminate|].
  destruct (ascii_dec "d" c) as [<-|_]; [discriminate|].
  split; [reflexivity|]. rewrite andb_false_r. cbn [orb].
  apply (all_chars_lstrip_by _ (fun d => Ascii.eqb d Str.SP)) in Hr.
  destruct (Str.lstrip_by _ r) as [|d r']; cbn [String.prefix];
    [now rewrite !andb_false_r|].
  destruct (ascii_dec "d" d) as [<-|_]; [discriminate|].
  now rewrite !andb_false_r.
Qed.

Lemma blank_resets (line : string) (cls : option string) :
  blank line -> resets_function cls line = negb (truthy cls).
Proof.
  unfold blank, resets_function. intros ->. now rewrite andb_true_r.
Qed.

(** What the tracker does with a blank line. *)
Lemma track_blank (st : scope) (line : string) :
  blank line ->
  track st line
  = Ok {| curcls := curcls st;
          curfn := if truthy (curcls st) then curfn st else None;
          lineno := S (lineno st) |}.
Proof.
  intros H. unfold track.
  destruct (blank_not_definition (curcls st) H) as [-> ->].
  rewrite (blank_resets _ H). now destruct (truthy (curcls st)).
Qed.

Section Tracker.

Context {re : Regex}.
Variables (regex rel_p : string) (ignore_case : bool).

(** C4, as the program has it: a blank line is always accepted and leaves
    the current class as it is. It resets the current function when no
    class is current, and also when the current class is the empty name
    (the program tests the truth value of the name); it leaves the current
    function unchanged when the current class is a non-empty name. *)
Theorem blank_line_resets_function_outside_class (st : scope) (line : string)
    (search : string -> bool) :
  blank line ->
  re_compile regex ignore_case = Some search ->
  exists t st',
    scan_line regex rel_p ignore_case st line = (t, Ok st')
    /\ curcls st' = curcls st
    /\ (curcls st = None \/ curcls st = Some "" -> curfn st' = None)
    /\ (forall cls, curcls st = Some cls -> cls <> "" -> curfn st' = curfn st).
Proof.
  intros Hblank Hre. rewrite scan_line_track, (track_blank _ Hblank).
  unfold re_search. rewrite Hre. eexists _, _. split; [reflexivity|].
  cbn [curcls curfn]. split; [reflexivity|]. split.
  - intros [->| ->]; reflexivity.
  - intros cls -> Hne. cbn [truthy].
    destruct cls; [congruence | reflexivity].
Qed.

(** C9, as the program has it: a match found while no function is current
    prints [None] in the place of the function name, after the class name
    and a dot when the current class is a non-empty name, and alone when no
    class is current or the current class is the empty name. *)
Theorem unset_function_prints_None (st st' : scope) (line : string)
    (t : list event) :
  scan_line regex rel_p ignore_case st line = (t, Ok st') ->
  re_search regex line ignore_case = Ok true ->
  curfn st' = None ->
  t = [EvPrint (rel_p +++ ":" +++ Str.of_nat (lineno st') +++ ":"
                +++ match curcls st' with
                    | Some cls =>
                        if Str.is_empty cls then "None" else cls +++ ".None"
                    | None => "None"
                    end
                +++ "(): " +++ Str.lstrip line)].
Proof.
  rewrite scan_line_track. intros H Hre Hfn.
  destruct (track st line) as [st1|e]; [|discriminate].
  rewrite Hre in H. injection H as <- <-.
  rewrite format_match_label, Hfn. unfold scope_label.
  destruct (curcls st1) as [[|c cls]|]; cbn [truthy Str.is_empty negb fmt];
    now rewrite ?append_assoc.
Qed.

End Tracker.

(** ** The path collector *)

(** Induction on a tree, with the hypothesis for every entry of a
    directory. *)
Lemma node_induction (P : node -> Prop) :
  (forall text, P (File text)) ->
  (forall entries, Forall (fun e => P (snd e)) entries -> P (Dir entries)) ->
  forall n, P n.
Proof.
  intros Hfile Hdir. fix IH 1. intros [text|entries].
  - apply Hfile.
  - apply Hdir. induction entries as [|[name sub] entries IHentries].
    + constructor.
    + constructor; [apply IH | exact IHentries].
Qed.

Lemma flat_map_flat_map {A B C} (f : A -> list B) (g : B -> list C)
    (l : list A) :
  flat_map g (flat_map f l) = flat_map (fun a => flat_map g (f a)) l.
Proof.
  induction l as [|a l IH]; cbn; [reflexivity|].
  now rewrite flat_map_app, IH.
Qed.

Lemma flat_map_ext_Forall {A B} (f g : A -> list B) (l : list A) :
  Forall (fun a => f a = g a) l -> flat_map f l = flat_map g l.
Proof. induction 1 as [|a l Ha _ IH]; cbn; [reflexivity | now rewrite Ha, IH]. Qed.

(** The two loops of [get_paths] append, triple by triple and file by
    file, what [collect] gives. *)
Lemma get_paths_flat_map {os : FileSystem} (p : string) :
  get_paths p = flat_map collect (os_walk p).
Proof.
  unfold get_paths.
  assert (Hin : forall root files acc,
             fold_left
               (fun ret f =>
                  if is_python_source f then ret ++ [path_join root f] else ret)
               files acc
             = acc ++ map (path_join root) (filter is_python_source files)).
  { intros root files. induction files as [|f files IH]; intros acc; cbn.
    - now rewrite app_nil_r.
    - rewrite IH. destruct (is_python_source f); [|reflexivity].
      cbn. now rewrite <- app_assoc. }
  assert (Hout : forall l acc,
             fold_left
               (fun ret rdf =>
                  let '(root, _, files) := rdf in
                  fold_left
                    (fun ret f =>
                       if is_python_source f
                       then ret ++ [path_join root f] else ret)
                    files ret) l acc
             = acc ++ flat_map collect l).
  { induction l as [|[[root dirs] files] l IH]; intros acc; cbn.
    - now rewrite app_nil_r.
    - rewrite IH, Hin. now rewrite <- app_assoc. }
  apply Hout.
Qed.

(** Collected over the triples of the walk, the paths are those of
    [listing]. *)
Lemma collect_walk (n : node) (top : string) :
  flat_map collect (walk top n) = listing top n.
Proof.
  revert top. induction n as [text|entries IH] using node_induction;
    intros top; [reflexivity|].
  cbn [walk listing flat_map collect]. unfold listing_here. f_equal.
  - clear IH. induction entries as [|[name [text|sub]] entries IHentries];
      cbn; [reflexivity| |exact IHentries].
    destruct (is_python_source name); cbn; now rewrite IHentries.
  - rewrite flat_map_flat_map. apply flat_map_ext_Forall.
    induction IH as [|[name sub] entries Hsub _ IHentries]; constructor.
    + apply Hsub.
    + exact IHentries.
Qed.

(** The collected paths are those of the files below [top] whose name has
    one of the two suffixes. *)
Lemma listing_sound (n : node) (top path : string) :
  In path (listing top n) ->
  exists name, file_under top n path name /\ is_python_source name = true.
Proof.
  revert top. induction n as [text|entries IH] using node_induction;
    intros top; [intros []|].
  rewrite Forall_forall in IH.
  cbn [listing]. unfold listing_here. rewrite in_app_iff, !in_flat_map.
  intros [([name [text|sub]] & He & Hin)|([name sub] & He & Hin)].
  - cbn in Hin. destruct (is_python_source name) eqn:Hpy; [|destruct Hin].
    destruct Hin as [<-|[]]. exists name. split; [|exact Hpy].
    now apply file_here with text.
  - destruct Hin.
  - destruct (IH _ He _ Hin) as (nm & Hunder & Hpy).
    exists nm. split; [|exact Hpy]. now apply file_below with name sub.
Qed.

Lemma listing_complete (n : node) (top path name : string) :
  file_under top n path name ->
  is_python_source name = true ->
  In path (listing top n).
Proof.
  intros H Hpy. induction H as [top entries name text He
                               |top entries d sub path name He _ IH];
    cbn [listing]; unfold listing_here; rewrite in_app_iff, !in_flat_map.
  - left. exists (name, File text). split; [exact He|].
    cbn. rewrite Hpy. now left.
  - right. exists (d, sub). split; [exact He | now apply IH].
Qed.

(** [f.endswith(t)] holds when [t] is what [f] ends with. *)
Lemma endswith_spec (s t : string) :
  Str.endswith s t = true <-> exists stem, s = stem +++ t.
Proof.
  induction s as [|c s IH]; cbn [Str.endswith].
  - rewrite orb_false_r, String.eqb_eq. split.
    + intros <-. now exists "".
    + intros ([|d stem] & H); [exact H | discriminate].
  - rewrite orb_true_iff, String.eqb_eq, IH. split.
    + intros [<-|(stem & ->)]; [now exists "" | now exists (String c stem)].
    + intros ([|d stem] & H); [now left|].
      right. exists stem. now injection H.
Qed.

Lemma is_python_source_spec (name : string) :
  is_python_source name = true
  <-> (exists stem, name = stem +++ ".py")
      \/ (exists stem, name = stem +++ ".pyi").
Proof.
  unfold is_python_source. now rewrite orb_true_iff, !endswith_spec.
Qed.

(** *** No path twice *)

Unset Implicit Arguments.

Lemma valid_name_spec (name : string) :
  valid_name name = true -> name <> "" /\ Str.has_char "/" name = false.
Proof.
  unfold valid_name. intros H. apply andb_prop in H as [He Hs].
  apply negb_true_iff in He, Hs. split; [|exact Hs].
  intros ->. discriminate.
Qed.

Lemma path_join_valid (top name : string) :
  valid_name name = true -> path_join top name = dir_prefix top +++ name.
Proof.
  intros H. apply valid_name_spec in H as [Hne Hs].
  unfold path_join, dir_prefix, Str.startswith.
  destruct name as [|c r]; [congruence|]. cbn [String.prefix].
  cbn in Hs. apply orb_false_iff in Hs as [Hc _].
  destruct (ascii_dec "/" c) as [<-|_]; [discriminate|].
  destruct (Str.is_empty top || Str.endswith top "/"); [reflexivity|].
  now rewrite append_assoc.
Qed.

Lemma endswith_slash_valid (x name : string) :
  valid_name name = true -> Str.endswith (x +++ name) "/" = false.
Proof.
  intros H. apply valid_name_spec in H as [Hne Hs].
  destruct (Str.endswith (x +++ name) "/") eqn:He; [|reflexivity].
  apply endswith_spec in He as (stem & He). exfalso.
  revert x stem He. induction name as [|c r IH]; [congruence|].
  intros x stem He. cbn in Hs. apply orb_false_iff in Hs as [Hc Hr].
  destruct r as [|d r].
  - assert (Hlast : forall a b : string,
               a +++ String c "" = b +++ "/" -> c = "/"%char).
    { induction a as [|a0 a IHa]; intros [|b0 b] Hab; cbn in Hab.
      - now injection Hab.
      - injection Hab as _ Hab. destruct b; discriminate.
      - injection Hab as _ Hab. destruct a; discriminate.
      - injection Hab as _ Hab. now apply IHa with b. }
    apply Hlast in He. subst c. discriminate.
  - apply (IH ltac:(discriminate) Hr (x +++ Str.chr c) stem).
    now rewrite append_snoc.
Qed.

Lemma is_empty_append (a b : string) :
  Str.is_empty (a +++ b) = Str.is_empty a && Str.is_empty b.
Proof. now destruct a. Qed.

Lemma dir_prefix_join (top name : string) :
  valid_name name = true ->
  dir_prefix (path_join top name) = dir_prefix top +++ name +++ "/".
Proof.
  intros H. rewrite (path_join_valid top name H). unfold dir_prefix at 1.
  rewrite (endswith_slash_valid _ name H), is_empty_append.
  destruct (valid_name_spec name H) as [Hne _].
  destruct name; [congruence|]. cbn [Str.is_empty].
  rewrite andb_false_r. cbn [orb]. now rewrite append_assoc.
Qed.

(** Two names without [/], each followed by [/], agree when they start
    the same string. *)
Lemma name_before_slash (d1 d2 r1 r2 : string) :
  Str.has_char "/" d1 = false ->
  Str.has_char "/" d2 = false ->
  d1 +++ "/" +++ r1 = d2 +++ "/" +++ r2 ->
  d1 = d2.
Proof.
  revert d2. induction d1 as [|c d1 IH]; intros [|c2 d2]; cbn;
    intros H1 H2 H; try reflexivity.
  - injection H as <- _. discriminate.
  - injection H as -> _. discriminate.
  - injection H as <- H. apply orb_false_iff in H1 as [_ H1].
    apply orb_false_iff in H2 as [_ H2]. f_equal. now apply IH.
Qed.

Lemma well_formed_dir (entries : list (string * node)) :
  well_formed (Dir entries) = true ->
  distinct (map fst entries) = true
  /\ Forall (fun e => valid_name (fst e) = true
                      /\ well_formed (snd e) = true) entries.
Proof.
  cbn [well_formed]. intros H. apply andb_prop in H as [Hd Hf].
  split; [exact Hd|]. rewrite forallb_forall in Hf.
  apply Forall_forall. intros [name sub] He.
  apply Hf in He. now apply andb_prop in He.
Qed.

Lemma distinct_cons (x : string) (l : list string) :
  distinct (x :: l) = true -> ~ In x l /\ distinct l = true.
Proof.
  cbn. intros H. apply andb_prop in H as [Hx Hl]. split; [|exact Hl].
  intros Hin. apply negb_true_iff in Hx.
  assert (existsb (String.eqb x) l = true); [|congruence].
  apply existsb_exists. exists x. split; [exact Hin | apply String.eqb_refl].
Qed.

(** Below a well-formed directory every path starts with the prefix of
    the directory. *)
Lemma file_under_prefix (top path name : string) (n : node) :
  file_under top n path name ->
  well_formed n = true ->
  exists rel, path = dir_prefix top +++ rel.
Proof.
  induction 1 as [top entries name text He
                 |top entries d sub path name He _ IH]; intros Hwf;
    apply well_formed_dir in Hwf as [_ Hwf]; rewrite Forall_forall in Hwf;
    destruct (Hwf _ He) as [Hv Hsub]; cbn [fst snd] in Hv, Hsub.
  - exists name. now apply path_join_valid.
  - destruct (IH Hsub) as (rel & ->). rewrite (dir_prefix_join top d Hv).
    exists (d +++ "/" +++ rel). now rewrite !append_assoc.
Qed.

Lemma listing_below_prefix (top d path : string) (sub : node) :
  valid_name d = true ->
  well_formed sub = true ->
  In path (listing (path_join top d) sub) ->
  exists rel, path = dir_prefix top +++ d +++ "/" +++ rel.
Proof.
  intros Hv Hwf Hin. apply listing_sound in Hin as (name & Hunder & _).
  destruct (file_under_prefix _ _ _ _ Hunder Hwf) as (rel & ->).
  exists rel. rewrite (dir_prefix_join top d Hv). now rewrite !append_assoc.
Qed.

Lemma listing_here_in (top path : string) (entries : list (string * node)) :
  Forall (fun e => valid_name (fst e) = true
                   /\ well_formed (snd e) = true) entries ->
  In path (listing_here top entries) ->
  exists name,
    In name (map fst entries) /\ valid_name name = true
    /\ path = dir_prefix top +++ name.
Proof.
  rewrite Forall_forall. intros Hwf. unfold listing_here.
  rewrite in_flat_map. intros ([name [text|sub]] & He & Hin); [|destruct Hin].
  cbn in Hin. destruct (is_python_source name); [|destruct Hin].
  destruct Hin as [<-|[]]. destruct (Hwf _ He) as [Hv _]. cbn in Hv.
  exists name. repeat split; [|exact Hv|now apply path_join_valid].
  apply in_map_iff. now exists (name, File text).
Qed.

Lemma listing_below_in (top path : string) (entries : list (string * node)) :
  Forall (fun e => valid_name (fst e) = true
                   /\ well_formed (snd e) = true) entries ->
  In path (flat_map (fun e => let '(name, sub) := e in
                              listing (path_join top name) sub) entries) ->
  exists d rel,
    In d (map fst entries) /\ Str.has_char "/" d = false
    /\ path = dir_prefix top +++ d +++ "/" +++ rel.
Proof.
  rewrite Forall_forall. intros Hwf. rewrite in_flat_map.
  intros ([d sub] & He & Hin). destruct (Hwf _ He) as [Hv Hsub].
  cbn [fst snd] in Hv, Hsub.
  destruct (listing_below_prefix top d path sub Hv Hsub Hin) as (rel & ->).
  exists d, rel. repeat split; [|now apply valid_name_spec].
  apply in_map_iff. now exists (d, sub).
Qed.

Lemma listing_here_NoDup (top : string) (entries : list (string * node)) :
  distinct (map fst entries) = true ->
  Forall (fun e => valid_name (fst e) = true
                   /\ well_formed (snd e) = true) entries ->
  NoDup (listing_here top entries).
Proof.
  induction entries as [|[name n] entries IH]; intros Hd Hwf;
    [constructor|].
  cbn [map fst] in Hd. apply distinct_cons in Hd as [Hnew Hd].
  inversion Hwf as [|e es [Hv _] Hwf']; subst. cbn [fst] in Hv.
  specialize (IH Hd Hwf').
  unfold listing_here. cbn [flat_map fst snd].
  fold (listing_here top entries).
  destruct n as [text|sub]; [|exact IH].
  destruct (is_python_source name); [|exact IH].
  cbn [app]. constructor; [|exact IH].
  intros Hin. apply (listing_here_in top _ entries Hwf') in Hin as (name' & Hin & _ & Heq).
  rewrite (path_join_valid top name Hv) in Heq. apply append_inv_head in Heq.
  now subst name'.
Qed.

(** In a well-formed tree [get_paths] meets every path once. *)
Lemma listing_NoDup (n : node) (top : string) :
  well_formed n = true -> NoDup (listing top n).
Proof.
  revert top. induction n as [text|entries IH] using node_induction;
    intros top Hwf; [constructor|].
  apply well_formed_dir in Hwf as [Hd Hwf]. cbn [listing].
  apply NoDup_app.
  - now apply listing_here_NoDup.
  - clear -IH Hd Hwf. revert Hd Hwf.
    induction IH as [|[d sub] entries Hsub _ IHentries]; intros Hd Hwf;
      [constructor|].
    cbn [map fst] in Hd. apply distinct_cons in Hd as [Hnew Hd].
    inversion Hwf as [|e es [Hv Hwfsub] Hwf']; subst.
    cbn [fst snd] in Hv, Hwfsub, Hsub.
    cbn [flat_map]. apply NoDup_app.
    + now apply Hsub.
    + now apply IHentries.
    + intros path Hin1 Hin2.
      destruct (listing_below_prefix top d path sub Hv Hwfsub Hin1) as (rel & ->).
      apply (listing_below_in top _ entries Hwf') in Hin2 as (d' & rel' & Hd' & Hs' & Heq).
      apply append_inv_head in Heq.
      apply name_before_slash in Heq;
        [now subst d' | now apply valid_name_spec | exact Hs'].
  - intros path Hin1 Hin2.
    apply (listing_here_in top _ entries Hwf) in Hin1 as (name & _ & Hv & ->).
    apply (listing_below_in top _ entries Hwf) in Hin2 as (d & rel & _ & _ & Heq).
    apply append_inv_head in Heq. apply valid_name_spec in Hv as [_ Hs].
    rewrite Heq, has_char_append in Hs. cbn in Hs.
    now rewrite orb_true_r in Hs.
Qed.

(** *** One file per path *)

Lemma file_under_inv (top path name : string) (entries : list (string * node)) :
  file_under top (Dir entries) path name ->
  (exists text, In (name, File text) entries /\ path = path_join top name)
  \/ (exists d sub,
         In (d, sub) entries /\ file_under (path_join top d) sub path name).
Proof.
  inversion 1; subst; [left; eauto | right; eauto].
Qed.

Lemma distinct_entry (entries : list (string * node)) (d : string)
    (a b : node) :
  distinct (map fst entries) = true ->
  In (d, a) entries -> In (d, b) entries -> a = b.
Proof.
  induction entries as [|[name n] entries IH]; [intros _ []|].
  cbn [map fst]. intros Hd. apply distinct_cons in Hd as [Hnew Hd].
  assert (Hfst : forall x, In (d, x) entries -> In d (map fst entries)).
  { intros x Hx. apply in_map_iff. now exists (d, x). }
  intros [Ha|Ha] [Hb|Hb].
  - congruence.
  - injection Ha as -> _. now apply Hfst in Hb.
  - injection Hb as -> _. now apply Hfst in Ha.
  - now apply IH.
Qed.

(** In a well-formed tree a path belongs to one file only. *)
Lemma file_under_name_unique (n : node) (top path name name' : string) :
  well_formed n = true ->
  file_under top n path name ->
  file_under top n path name' ->
  name = name'.
Proof.
  revert top. induction n as [text|entries IH] using node_induction;
    intros top Hwf H H'; [inversion H|].
  rewrite Forall_forall in IH.
  pose proof Hwf as Hwf0.
  apply well_formed_dir in Hwf as [Hd Hwf]. rewrite Forall_forall in Hwf.
  assert (Hbelow : forall d sub nm,
             In (d, sub) entries ->
             file_under (path_join top d) sub path nm ->
             Str.has_char "/" d = false
             /\ exists rel, path = dir_prefix top +++ d +++ "/" +++ rel).
  { intros d sub nm He Hsub. destruct (Hwf _ He) as [Hv Hwfsub].
    cbn [fst snd] in Hv, Hwfsub.
    split; [now apply valid_name_spec|].
    destruct (file_under_prefix _ _ _ _ Hsub Hwfsub) as (rel & ->).
    exists rel. rewrite (dir_prefix_join top d Hv). now rewrite !append_assoc. }
  assert (Hhere : forall nm text,
             In (nm, File text) entries ->
             Str.has_char "/" nm = false
             /\ path_join top nm = dir_prefix top +++ nm).
  { intros nm text He. destruct (Hwf _ He) as [Hv _]. cbn [fst] in Hv.
    split; [now apply valid_name_spec | now apply path_join_valid]. }
  apply file_under_inv in H as [(text & He & ->)|(d & sub & He & Hsub)];
    apply file_under_inv in H' as [(text' & He' & Hp)|(d' & sub' & He' & Hsub')].
  - destruct (Hhere _ _ He) as [_ Hj], (Hhere _ _ He') as [_ Hj'].
    rewrite Hj, Hj' in Hp. now apply append_inv_head in Hp.
  - exfalso. destruct (Hhere _ _ He) as [Hs Hj].
    assert (Hb : Str.has_char "/" d' = false
                 /\ exists rel, path_join top name
                                = dir_prefix top +++ d' +++ "/" +++ rel).
    { destruct (Hwf _ He') as [Hv Hwfsub]. cbn [fst snd] in Hv, Hwfsub.
      split; [now apply valid_name_spec|].
      destruct (file_under_prefix _ _ _ _ Hsub' Hwfsub) as (rel & Hrel).
      exists rel. rewrite Hrel, (dir_prefix_join top d' Hv).
      now rewrite !append_assoc. }
    destruct Hb as (_ & rel & Hrel). rewrite Hj in Hrel.
    apply append_inv_head in Hrel. rewrite Hrel, has_char_append in Hs.
    cbn in Hs. now rewrite orb_true_r in Hs.
  - exfalso. destruct (Hhere _ _ He') as [Hs Hj].
    destruct (Hbelow _ _ _ He Hsub) as (_ & rel & Hrel).
    rewrite Hp, Hj in Hrel.
    apply append_inv_head in Hrel. rewrite Hrel, has_char_append in Hs.
    cbn in Hs. now rewrite orb_true_r in Hs.
  - destruct (Hbelow _ _ _ He Hsub) as (Hs & rel & Hrel).
    destruct (Hbelow _ _ _ He' Hsub') as (Hs' & rel' & Hrel').
    rewrite Hrel in Hrel'. apply append_inv_head in Hrel'.
    apply name_before_slash in Hrel'; [|assumption..]. subst d'.
    assert (sub' = sub) by (eapply distinct_entry; eauto). subst sub'.
    destruct (Hwf _ He) as [_ Hwfsub]. cbn [snd] in Hwfsub.
    apply (IH _ He (path_join top d) Hwfsub Hsub Hsub').
Qed.

(** C7: for a directory [root], [get_paths] returns the paths of exactly
    the files that lie in it or below it and whose name ends in [.py] or
    [.pyi]: every such file is returned, under its path; a file with
    another name is never returned; and no path is returned twice. The
    tree is one a file system can hold: valid names, no two the same in a
    directory. *)
Theorem get_paths_python_sources {os : FileSystem} (root : string)
    (entries : list (string * node)) :
  fs_lookup root = Some (Dir entries) ->
  well_formed (Dir entries) = true ->
  (forall path,
      In path (get_paths root)
      <-> exists name,
            file_under root (Dir entries) path name
            /\ ((exists stem, name = stem +++ ".py")
                \/ (exists stem, name = stem +++ ".pyi")))
  /\ (forall path name,
         file_under root (Dir entries) path name ->
         In path (get_paths root) ->
         (exists stem, name = stem +++ ".py")
         \/ (exists stem, name = stem +++ ".pyi"))
  /\ NoDup (get_paths root).
Proof.
  intros Hroot Hwf. rewrite get_paths_flat_map. unfold os_walk.
  rewrite Hroot, collect_walk. split; [|split].
  - intros path. split.
    + intros H. apply listing_sound in H as (name & Hunder & Hpy).
      exists name. split; [exact Hunder | now apply is_python_source_spec].
    + intros (name & Hunder & Hpy).
      apply listing_complete with name; [exact Hunder|].
      now apply is_python_source_spec.
  - intros path name Hunder H.
    apply listing_sound in H as (name' & Hunder' & Hpy).
    rewrite (file_under_name_unique _ _ _ _ _ Hwf Hunder Hunder').
    now apply is_python_source_spec.
  - now apply listing_NoDup.
Qed.

(** ** The driver *)

Section Driver.

Context {re : Regex} {os : FileSystem}.
Variables (regex : string) (ignore_case : bool).

(** C10: [pyfngrep] chooses between file and directory by the module
    global [path], not by its parameter. Without the global every call
    raises [NameError] before anything is opened, read or printed, whatever
    [pathspec] is; with it, [pathspec] is scanned as a single file exactly
    when the global names a file, and as a directory otherwise. *)
Theorem pyfngrep_tests_global_path (pathspec : string) :
  (forall g, g_path g = None ->
             pyfngrep g regex pathspec ignore_case
             = ([], Raise (NameError "path")))
  /\ (forall g path,
         g_path g = Some path -> is_file path = true ->
         pyfngrep g regex pathspec ignore_case
         = _pyfngrep regex [pathspec] "" ignore_case)
  /\ (forall g path,
         g_path g = Some path -> is_file path = false ->
         pyfngrep g regex pathspec ignore_case
         = _pyfngrep regex (get_paths pathspec) pathspec ignore_case).
Proof.
  unfold pyfngrep. repeat split.
  - now intros g ->.
  - now intros g path -> ->.
  - now intros g path -> ->.
Qed.

(** Through the [__main__] block the global is the path argument itself:
    there a path that names a file is scanned alone, with an empty prefix,
    and every match is printed under the path as it was given. *)
Lemma main_single_file (path : string) :
  is_file path = true ->
  main regex path ignore_case = _pyfngrep regex [path] "" ignore_case
  /\ forall s,
       In (EvPrint s) (trace (main regex path ignore_case)) ->
       exists rest, s = path +++ ":" +++ rest.
Proof.
  intros Hfile. unfold main, pyfngrep. cbn [g_path]. rewrite Hfile.
  split; [reflexivity|]. intros s Hs.
  apply printed_line_of_run
    in Hs as (p & text & i & line & t & sti & label & Hp & _ & _ & _ & _ & _ & ->).
  destruct Hp as [<-|[]]. cbn [String.length Str.slice_from].
  eexists. reflexivity.
Qed.

(** [os.walk] finds nothing below a path that names a file. *)
Lemma get_paths_of_file (p text : string) :
  fs_lookup p = Some (File text) -> get_paths p = [].
Proof.
  intros Hp. rewrite get_paths_flat_map. unfold os_walk. now rewrite Hp.
Qed.

End Driver.

(** ** The end-to-end example *)

(** One line, when the tracker accepts it and the pattern compiles. *)
Lemma scan_line_step {re : Regex} (regex rel_p : string) (ignore_case : bool)
    (st st' : scope) (line : string) (search : string -> bool) :
  track st line = Ok st' ->
  re_compile regex ignore_case = Some search ->
  scan_line regex rel_p ignore_case st line
  = (if search line
     then [EvPrint (format_match rel_p (lineno st') (curcls st') (curfn st')
                      (Str.lstrip line))]
     else [],
     Ok st').
Proof.
  intros Ht Hre. rewrite scan_line_track, Ht. unfold re_search.
  now rewrite Hre.
Qed.

Ltac scan_next Hre :=
  cbn [for_each];
  erewrite scan_line_step; [|vm_compute; reflexivity|exact Hre];
  rewrite bind_ok.

(** C1, on the program: for the file of three lines [class Foo:],
    [def bar(self):] and [x = "needle"], the pattern [needle] gives one
    match, on line 3, with the text of the line without its indentation.
    Its scope is printed [Foo:.bar()]: the class line has no parenthesis,
    so the name taken from it is the whole token [Foo:], colon included. *)
Theorem end_to_end_example {re : Regex} {os : FileSystem} (p text : string)
    (search : string -> bool) :
  fs_lookup p = Some (File text) ->
  lines_of text = Ref.foo_lines ->
  re_compile "needle" false = Some search ->
  (forall line, search line = Str.contains line "needle") ->
  _pyfngrep "needle" [p] "" false
  = ([EvOpen p;
      EvPrint (p +++ ":3:Foo:.bar(): x = " +++ Str.chr Str.DQUOTE
               +++ "needle" +++ Str.chr Str.DQUOTE)],
     Ok tt).
Proof.
  intros Hp Hlines Hre Hsearch.
  rewrite _pyfngrep_cons, (scan_path_file _ _ _ _ Hp), Hlines.
  unfold Ref.foo_lines. cbn [String.length Str.slice_from].
  do 3 scan_next Hre. rewrite !Hsearch.
  vm_compute. reflexivity.
Qed.

(** ** The program on the example files *)

Lemma end_to_end_example_witness :
  @_pyfngrep Ref.re_literal Ref.world "needle" ["foo.py"] "" false
  = ([EvOpen "foo.py";
      EvPrint ("foo.py" +++ ":3:Foo:.bar(): x = " +++ Str.chr Str.DQUOTE
               +++ "needle" +++ Str.chr Str.DQUOTE)],
     Ok tt).
Proof.
  apply (@end_to_end_example Ref.re_literal Ref.world "foo.py" Ref.foo_py
           (fun line => Str.contains line "needle")).
  - reflexivity.
  - reflexivity.
  - reflexivity.
  - intros line. reflexivity.
Defined.

(** C2, on the program: [/x/y/z.py] is an existing file, yet a call of
    [pyfngrep] on it scans it alone only when the global [path] happens to
    name a file. Without the global the call raises [NameError]; with the
    global naming a directory the path is walked as a directory and nothing
    is scanned. Only through the [__main__] block, where the global is the
    path argument, is the file scanned under its own path. *)
Theorem pyfngrep_single_file_needs_global :
  @is_file Ref.world "/x/y/z.py" = true
  /\ @pyfngrep Ref.re_literal Ref.world {| g_path := None |}
       "needle" "/x/y/z.py" false
     = ([], Raise (NameError "path"))
  /\ @pyfngrep Ref.re_literal Ref.world {| g_path := Some "/x/y" |}
       "needle" "/x/y/z.py" false
     = ([], Ok tt)
  /\ @main Ref.re_literal Ref.world "needle" "/x/y/z.py" false
     = ([EvOpen "/x/y/z.py"; EvPrint "/x/y/z.py:1:None(): needle"], Ok tt).
Proof. repeat split; vm_compute; reflexivity. Qed.

(** C3 as stated fails: with the malformed pattern [(] the file [a.py] is
    opened and read before the error is raised, and a run over an empty
    file ends without any error. *)
Lemma malformed_pattern_opens_file_first :
  @re_compile Ref.re_literal "(" false = None
  /\ @_pyfngrep Ref.re_literal Ref.world "(" ["a.py"] "" false
     = ([EvOpen "a.py"], Raise (ReError "("))
  /\ @_pyfngrep Ref.re_literal Ref.world "(" ["empty.py"] "" false
     = ([EvOpen "empty.py"], Ok tt).
Proof. repeat split; vm_compute; reflexivity. Qed.

Lemma malformed_pattern_raises_at_first_search_witness :
  @re_compile Ref.re_literal "(" false = None
  /\ (forall paths s,
         ~ In (EvPrint s)
             (trace (@_pyfngrep Ref.re_literal Ref.world "(" paths "" false)))
  /\ @_pyfngrep Ref.re_literal Ref.world "(" (["empty.py"] ++ "a.py" :: ["foo.py"])
       "" false
     = (map EvOpen ["empty.py"] ++ [EvOpen "a.py"], Raise (ReError "(")).
Proof.
  pose proof (@malformed_pattern_raises_at_first_search Ref.re_literal
                Ref.world "(" "" false eq_refl) as (Hnone & _ & Hfirst).
  split; [reflexivity|]. split; [exact Hnone|].
  apply (Hfirst ["empty.py"] "a.py" ["foo.py"] (Ref.unlines ["x = 1"])
           "x = 1" []).
  - repeat constructor.
  - reflexivity.
  - reflexivity.
  - intros [H|H]; discriminate H.
Defined.

(** C4 as stated fails: after the lines [class (:] and [def f():] the
    current class is set, to the empty name, and the current function is
    [f]; the blank line that follows resets the current function. *)
Lemma blank_line_resets_function_after_empty_class_name :
  exists st st',
    for_each (@scan_line Ref.re_literal "needle" "odd.py" false) scope0
      Ref.odd_lines = ([], Ok st)
    /\ curcls st = Some ""
    /\ curfn st = Some "f"
    /\ blank ""
    /\ @scan_line Ref.re_literal "needle" "odd.py" false st "" = ([], Ok st')
    /\ curfn st' = None
    /\ curfn st' <> curfn st.
Proof.
  exists {| curcls := Some ""; curfn := Some "f"; lineno := 2 |},
         {| curcls := Some ""; curfn := None; lineno := 3 |}.
  repeat split; try (vm_compute; reflexivity). discriminate.
Qed.

Lemma blank_line_resets_function_outside_class_witness :
  blank "   "
  /\ exists t st',
       @scan_line Ref.re_literal "needle" "foo.py" false
         {| curcls := Some "Foo"; curfn := Some "bar"; lineno := 2 |} "   "
       = (t, Ok st')
       /\ curfn st' = Some "bar".
Proof.
  split; [reflexivity|].
  destruct (@blank_line_resets_function_outside_class Ref.re_literal
              "needle" "foo.py" false
              {| curcls := Some "Foo"; curfn := Some "bar"; lineno := 2 |}
              "   " (fun s => Str.contains s "needle") eq_refl eq_refl)
    as (t & st' & Hrun & _ & _ & Hkeep).
  exists t, st'. split; [exact Hrun|].
  apply (Hkeep "Foo"); [reflexivity | discriminate].
Defined.

Lemma bad_definition_aborts_run_witness :
  length (Str.split "class ") < 2
  /\ @_pyfngrep Ref.re_literal Ref.world "needle"
       (["foo.py"] ++ "bad.py" :: ["a.py"]) "" false
     = (trace (@_pyfngrep Ref.re_literal Ref.world "needle" ["foo.py"] ""
                 false)
        ++ EvOpen "bad.py" :: [EvPrint "bad.py:1:None(): needle one"],
        Raise IndexError).
Proof.
  assert (Hlen : length (Str.split "class ") < 2) by (vm_compute; lia).
  split; [exact Hlen|].
  apply (@bad_definition_aborts_run Ref.re_literal Ref.world "needle" ""
           false ["foo.py"] ["a.py"] "bad.py" Ref.bad_py ["needle one"]
           ["needle two"] "class "
           (trace (@_pyfngrep Ref.re_literal Ref.world "needle" ["foo.py"] ""
                     false))
           [EvPrint "bad.py:1:None(): needle one"]
           {| curcls := None; curfn := None; lineno := 1 |}).
  - vm_compute. reflexivity.
  - reflexivity.
  - vm_compute. reflexivity.
  - vm_compute. reflexivity.
  - left. reflexivity.
  - exact Hlen.
Defined.

(** A directory scan: of the files below [src] only those ending in [.py]
    or [.pyi] are opened, [c.txt] never, and the matches are printed under
    the paths without the root. *)
Example directory_scan :
  @main Ref.re_literal Ref.world "needle" "src" false
  = ([EvOpen "src/a.py"; EvOpen "src/b.pyi"; EvOpen "src/pkg/d.py";
      EvPrint "/pkg/d.py:1:None(): needle"],
     Ok tt).
Proof. vm_compute. reflexivity. Qed.

Example get_paths_src :
  @get_paths Ref.world "src" = ["src/a.py"; "src/b.pyi"; "src/pkg/d.py"].
Proof. vm_compute. reflexivity. Qed.

Lemma get_paths_python_sources_witness :
  well_formed (Dir Ref.src_tree) = true
  /\ (forall path,
         In path (@get_paths Ref.world "src")
         <-> exists name,
               file_under "src" (Dir Ref.src_tree) path name
               /\ ((exists stem, name = stem +++ ".py")
                   \/ (exists stem, name = stem +++ ".pyi")))
  /\ (forall path name,
         file_under "src" (Dir Ref.src_tree) path name ->
         In path (@get_paths Ref.world "src") ->
         (exists stem, name = stem +++ ".py")
         \/ (exists stem, name = stem +++ ".pyi"))
  /\ NoDup (@get_paths Ref.world "src").
Proof.
  split; [reflexivity|].
  apply (@get_paths_python_sources Ref.world "src" Ref.src_tree).
  - reflexivity.
  - reflexivity.
Defined.

Lemma reported_line_number_witness :
  exists p text i line t sti label,
    In p ["foo.py"]
    /\ @fs_lookup Ref.world p = Some (File text)
    /\ nth_error (lines_of text) i = Some line
    /\ for_each (@scan_line Ref.re_literal "needle"
                   (Str.slice_from (String.length "") p) false) scope0
         (firstn i (lines_of text)) = (t, Ok sti)
    /\ lineno sti = i
    /\ @re_search Ref.re_literal "needle" line false = Ok true
    /\ "foo.py:3:Foo:.bar(): x = " +++ Str.chr Str.DQUOTE +++ "needle"
       +++ Str.chr Str.DQUOTE
       = Str.slice_from (String.length "") p +++ ":"
         +++ Str.of_nat (S i) +++ ":" +++ label +++ "(): "
         +++ Str.lstrip line.
Proof.
  apply (@reported_line_number Ref.re_literal Ref.world "needle" "" false
           ["foo.py"]).
  right. left. vm_compute. reflexivity.
Defined.

(** C9 as stated fails: the line after the class line [class (:] is
    inside a class, whose name is empty, and no method has been seen; the
    match is printed under [None()], without the dot of the class form. *)
Lemma match_after_empty_class_name_prints_bare_None :
  track scope0 "class (:"
  = Ok {| curcls := Some ""; curfn := None; lineno := 1 |}
  /\ @_pyfngrep Ref.re_literal Ref.world "needle" ["odd.py"] "" false
     = ([EvOpen "odd.py"; EvPrint "odd.py:2:None(): needle"], Ok tt)
  /\ "odd.py:2:None(): needle" <> "odd.py:2:.None(): needle".
Proof.
  repeat split; try (vm_compute; reflexivity). discriminate.
Qed.

Lemma unset_function_prints_None_witness :
  @scan_line Ref.re_literal "needle" "foo.py" false
    {| curcls := Some "Foo"; curfn := None; lineno := 1 |} "    x = needle"
  = ([EvPrint "foo.py:2:Foo.None(): x = needle"],
     Ok {| curcls := Some "Foo"; curfn := None; lineno := 2 |})
  /\ [EvPrint "foo.py:2:Foo.None(): x = needle"]
     = [EvPrint ("foo.py" +++ ":" +++ Str.of_nat 2 +++ ":" +++ "Foo"
                 +++ ".None" +++ "(): " +++ Str.lstrip "    x = needle")].
Proof.
  assert (Hrun : @scan_line Ref.re_literal "needle" "foo.py" false
                   {| curcls := Some "Foo"; curfn := None; lineno := 1 |}
                   "    x = needle"
                 = ([EvPrint "foo.py:2:Foo.None(): x = needle"],
                    Ok {| curcls := Some "Foo"; curfn := None; lineno := 2 |}))
    by (vm_compute; reflexivity).
  split; [exact Hrun|].
  apply (@unset_function_prints_None Ref.re_literal "needle" "foo.py" false
           _ _ _ _ Hrun); reflexivity.
Defined.

(** The placeholder at top level: before any [def], and after the blank
    line that ends a top-level function. *)
Example top_level_placeholder :
  trace (for_each (@scan_line Ref.re_literal "needle" "t.py" false) scope0
           ["needle 0"; "def bar():"; "    needle 1"; ""; "needle 2"])
  = [EvPrint "t.py:1:None(): needle 0";
     EvPrint "t.py:3:bar(): needle 1";
     EvPrint "t.py:5:None(): needle 2"].
Proof. vm_compute. reflexivity. Qed.

(** Inside a class a blank line does not end the method. *)
Example class_body_blank_line :
  trace (for_each (@scan_line Ref.re_literal "needle" "t.py" false) scope0
           ["class Foo(Base):"; "    needle 0"; "    def bar(self):"; "";
            "        needle 1"])
  = [EvPrint "t.py:2:Foo.None(): needle 0";
     EvPrint "t.py:5:Foo.bar(): needle 1"].
Proof. vm_compute. reflexivity. Qed.

(** [re.IGNORECASE] on the pattern [ERROR]. *)
Example ignore_case_flag :
  @re_search Ref.re_literal "ERROR" "an error occurred" true = Ok true
  /\ @re_search Ref.re_literal "ERROR" "an error occurred" false = Ok false.
Proof. split; vm_compute; reflexivity. Qed.

Lemma pyfngrep_tests_global_path_witness :
  @is_file Ref.world "/x/y/z.py" = true
  /\ @pyfngrep Ref.re_literal Ref.world {| g_path := Some "/x/y/z.py" |}
       "needle" "/x/y" false
     = @_pyfngrep Ref.re_literal Ref.world "needle" ["/x/y"] "" false.
Proof.
  split; [reflexivity|].
  destruct (@pyfngrep_tests_global_path Ref.re_literal Ref.world "needle"
              false "/x/y") as (_ & Hfile & _).
  apply (Hfile {| g_path := Some "/x/y/z.py" |} "/x/y/z.py"); reflexivity.
Defined.

(** * Further properties of the program *)

(** ** What a scanned file prints *)

Lemma numbered_cons (n : nat) (line : string) (lines : list string) :
  numbered n (line :: lines) = (n, line) :: numbered (S n) lines.
Proof. reflexivity. Qed.

Lemma format_match_output_line (rel_p : string) (n : nat)
    (cls fn : option string) (line : string) :
  format_match rel_p n cls fn (Str.lstrip line)
  = output_line rel_p n (scope_label cls fn) line.
Proof. apply format_match_label. Qed.

(** When the scan of the lines of a file reaches the end, it has printed
    the lines the search finds, all of them, once each and in the order
    of the file, each under its own line number. *)
Theorem every_match_printed {re : Regex} (regex rel_p : string)
    (ignore_case : bool) (search : string -> bool) (lines : list string)
    (st st' : scope) (t : list event) :
  re_compile regex ignore_case = Some search ->
  for_each (scan_line regex rel_p ignore_case) st lines = (t, Ok st') ->
  exists labels,
    length labels
    = length (filter (fun nl => search (snd nl))
                (numbered (S (lineno st)) lines))
    /\ t = map (fun x => EvPrint (output_line rel_p (fst (fst x)) (snd x)
                                    (snd (fst x))))
             (combine (filter (fun nl => search (snd nl))
                         (numbered (S (lineno st)) lines)) labels).
Proof.
  intros Hre. revert st t.
  induction lines as [|line lines IH]; intros st t; cbn [for_each].
  - inversion 1. now exists [].
  - destruct (scan_line regex rel_p ignore_case st line) as [t0 [s1|e]] eqn:Hl;
      [|discriminate].
    pose proof (scan_line_ok _ _ _ _ _ Hl) as Ht.
    rewrite (scan_line_step regex rel_p ignore_case st s1 line search Ht Hre)
      in Hl. injection Hl as <-.
    rewrite bind_ok.
    destruct (for_each _ s1 lines) as [t1 [s2|e]] eqn:Hrest; [|discriminate].
    cbn [fst snd]. intros H. injection H as <- <-.
    destruct (IH _ _ Hrest) as (labels & Hlen & ->).
    rewrite (track_lineno _ _ Ht) in *.
    rewrite numbered_cons. cbn [filter snd].
    destruct (search line).
    + exists (scope_label (curcls s1) (curfn s1) :: labels). split.
      * cbn [length]. now rewrite Hlen.
      * cbn [combine map app fst snd]. now rewrite format_match_output_line.
    + exists labels. now split.
Qed.

(** ** Which lines change the scope *)

Lemma track_keep (st : scope) (line : string) :
  Str.startswith line "class " = false ->
  defines_function (curcls st) line = false ->
  resets_function (curcls st) line = false ->
  track st line
  = Ok {| curcls := curcls st; curfn := curfn st; lineno := S (lineno st) |}.
Proof. intros Hc Hd Hr. unfold track. now rewrite Hc, Hd, Hr. Qed.

(** Over lines that keep the scope, the scan keeps it and prints every
    match under it. *)
Lemma scope_kept {re : Regex} (regex rel_p : string) (ignore_case : bool)
    (cls fn : option string) (lines : list string) :
  Forall (fun l => Str.startswith l "class " = false
                   /\ defines_function cls l = false
                   /\ resets_function cls l = false) lines ->
  forall st t r,
    curcls st = cls -> curfn st = fn ->
    for_each (scan_line regex rel_p ignore_case) st lines = (t, r) ->
    (forall st', r = Ok st' -> curcls st' = cls /\ curfn st' = fn)
    /\ (forall s, In (EvPrint s) t ->
                  exists n line,
                    In line lines
                    /\ s = output_line rel_p n (scope_label cls fn) line).
Proof.
  induction 1 as [|line lines (Hc & Hd & Hr) _ IH]; intros st t r Hcls Hfn;
    cbn [for_each].
  - intros H. injection H as <- <-. split; [|intros s []].
    intros st' H. injection H as <-. now split.
  - subst cls fn. rewrite scan_line_track, (track_keep st line Hc Hd Hr).
    destruct (re_search regex line ignore_case) as [found|e].
    + rewrite bind_ok.
      destruct (for_each _ _ lines) as [t1 r1] eqn:Hrest. cbn [fst snd].
      intros H. injection H as <- <-.
      pose proof (fun H1 H2 => IH _ _ _ H1 H2 Hrest) as IH'.
      destruct (IH' eq_refl eq_refl) as [Hst Hpr].
      split; [exact Hst|]. intros s Hs. apply in_app_or in Hs as [Hs|Hs].
      * destruct found; [|destruct Hs]. destruct Hs as [Hs|[]].
        injection Hs as <-. exists (S (lineno st)), line. split; [now left|].
        apply format_match_output_line.
      * destruct (Hpr s Hs) as (n & l & Hl & ->).
        exists n, l. split; [now right | reflexivity].
    + cbn. intros H. injection H as <- <-.
      split; [discriminate | intros s []].
Qed.

(** Once a class with a non-empty name is current, only a class line or a
    [def] indented with spaces changes the scope: blank lines and [def]
    lines at the left margin leave class and method as they are, and every
    match among such lines is printed under that class and method. *)
Theorem scope_kept_inside_class {re : Regex} (regex rel_p : string)
    (ignore_case : bool) (st : scope) (lines : list string)
    (t : list event) (r : result scope) :
  truthy (curcls st) = true ->
  Forall (fun l => Str.startswith l "class " = false
                   /\ re_match_indented_def l = false) lines ->
  for_each (scan_line regex rel_p ignore_case) st lines = (t, r) ->
  (forall st', r = Ok st' -> curcls st' = curcls st /\ curfn st' = curfn st)
  /\ (forall s, In (EvPrint s) t ->
                exists n line,
                  In line lines
                  /\ s = output_line rel_p n
                           (fmt (curcls st) +++ "." +++ fmt (curfn st)) line).
Proof.
  intros Hcls Hlines Hrun.
  assert (Hlabel : scope_label (curcls st) (curfn st)
                   = fmt (curcls st) +++ "." +++ fmt (curfn st))
    by (unfold scope_label; now rewrite Hcls).
  rewrite <- Hlabel.
  apply (scope_kept regex rel_p ignore_case (curcls st) (curfn st) lines)
    with (st := st) (r := r); auto.
  apply Forall_impl with (2 := Hlines). intros l [Hc Hd].
  unfold defines_function, resets_function. rewrite Hcls, Hc, Hd. auto.
Qed.

(** While no class is current, only a class line, a [def] at the left
    margin or a blank line changes the scope: over other lines, indented
    [def] lines among them, the function stays what it is and every match
    is printed under it. *)
Theorem scope_kept_at_top_level {re : Regex} (regex rel_p : string)
    (ignore_case : bool) (st : scope) (lines : list string)
    (t : list event) (r : result scope) :
  truthy (curcls st) = false ->
  Forall (fun l => Str.startswith l "class " = false
                   /\ Str.startswith l "def " = false
                   /\ ~ blank l) lines ->
  for_each (scan_line regex rel_p ignore_case) st lines = (t, r) ->
  (forall st', r = Ok st' -> curcls st' = curcls st /\ curfn st' = curfn st)
  /\ (forall s, In (EvPrint s) t ->
                exists n line,
                  In line lines
                  /\ s = output_line rel_p n (fmt (curfn st)) line).
Proof.
  intros Hcls Hlines Hrun.
  assert (Hlabel : scope_label (curcls st) (curfn st) = fmt (curfn st))
    by (unfold scope_label; now rewrite Hcls).
  rewrite <- Hlabel.
  apply (scope_kept regex rel_p ignore_case (curcls st) (curfn st) lines)
    with (st := st) (r := r); auto.
  apply Forall_impl with (2 := Hlines). intros l (Hc & Hd & Hb).
  unfold defines_function, resets_function. rewrite Hcls, Hc, Hd.
  repeat split. cbn [negb andb].
  unfold blank in Hb. destruct (Str.strip l); [congruence | reflexivity].
Qed.

(** ** Definition lines *)

Lemma first_char_not_blank (c : ascii) (r : string) :
  Str.isspace c = false ->
  (String.length (Str.strip (String c r)) =? 0)%nat = false.
Proof.
  intros Hc. destruct (Str.strip (String c r)) eqn:Hs; [|reflexivity].
  apply blank_all_space in Hs. cbn in Hs. now rewrite Hc in Hs.
Qed.

(** A class line with a name opens the class and clears the function,
    whatever class and function were current; found by the search, the
    class line itself is printed under the class it opens, with [None] for
    the function. *)
Theorem class_line_opens_class {re : Regex} (regex rel_p : string)
    (ignore_case : bool) (search : string -> bool) (st : scope)
    (line name : string) :
  re_compile regex ignore_case = Some search ->
  Str.startswith line "class " = true ->
  fn_or_class_name line = Ok name ->
  scan_line regex rel_p ignore_case st line
  = (if search line
     then [EvPrint (output_line rel_p (S (lineno st))
                      (scope_label (Some name) None) line)]
     else [],
     Ok {| curcls := Some name; curfn := None; lineno := S (lineno st) |}).
Proof.
  intros Hre Hc Hname.
  assert (Ht : track st line
               = Ok {| curcls := Some name; curfn := None;
                       lineno := S (lineno st) |}).
  { unfold track. rewrite Hc, Hname.
    destruct (class_line_not_def line Hc) as [Hd Hi].
    unfold defines_function. rewrite Hd, Hi, !andb_false_r. cbn [orb].
    now destruct (resets_function (Some name) line). }
  rewrite (scan_line_step regex rel_p ignore_case st _ line search Ht Hre).
  cbn [curcls curfn lineno]. now rewrite format_match_output_line.
Qed.

(** A line the program takes for a function definition, with a name,
    sets the function and keeps the class; found by the search, the
    definition line itself is printed under the function it defines. *)
Theorem def_line_sets_function {re : Regex} (regex rel_p : string)
    (ignore_case : bool) (search : string -> bool) (st : scope)
    (line name : string) :
  re_compile regex ignore_case = Some search ->
  Str.startswith line "class " = false ->
  defines_function (curcls st) line = true ->
  fn_or_class_name line = Ok name ->
  scan_line regex rel_p ignore_case st line
  = (if search line
     then [EvPrint (output_line rel_p (S (lineno st))
                      (scope_label (curcls st) (Some name)) line)]
     else [],
     Ok {| curcls := curcls st; curfn := Some name;
           lineno := S (lineno st) |}).
Proof.
  intros Hre Hc Hd Hname.
  assert (Hr : resets_function (curcls st) line = false).
  { unfold resets_function. unfold defines_function in Hd.
    destruct (truthy (curcls st)); [reflexivity|].
    cbn [negb andb orb] in *. rewrite orb_false_r in Hd.
    destruct line as [|c r]; [discriminate|].
    unfold Str.startswith in Hd. cbn [String.prefix] in Hd.
    destruct (ascii_dec "d" c) as [<-|]; [|discriminate].
    now apply first_char_not_blank. }
  assert (Ht : track st line
               = Ok {| curcls := curcls st; curfn := Some name;
                       lineno := S (lineno st) |}).
  { unfold track. now rewrite Hc, Hd, Hname, Hr. }
  rewrite (scan_line_step regex rel_p ignore_case st _ line search Ht Hre).
  cbn [curcls curfn lineno]. now rewrite format_match_output_line.
Qed.



(** A method indented with a tab: the match on the [def] line and the
    state after it still name the method before. *)
Example tab_indented_method :
  @scan_line Ref.re_literal "run" "t.py" false
    {| curcls := Some "Foo"; curfn := Some "old"; lineno := 4 |}
    (String "009" "def run(self):")
  = ([EvPrint (output_line "t.py" 5 "Foo.old"
                 (String "009" "def run(self):"))],
     Ok {| curcls := Some "Foo"; curfn := Some "old"; lineno := 5 |}).
Proof. vm_compute. reflexivity. Qed.

(** ** Runs over several paths *)

Section Paths.

Context {re : Regex} {os : FileSystem}.
Variables (regex base : string) (ignore_case : bool).

(** The paths are scanned one after the other and nothing is carried from
    one file to the next: the run over [before ++ after] is the run over
    [before] followed, when that one ends without error, by the run over
    [after]; when it raises, nothing of [after] is touched. *)
Theorem run_over_paths_composes (before after : list string) :
  _pyfngrep regex (before ++ after) base ignore_case
  = match outcome (_pyfngrep regex before base ignore_case) with
    | Ok _ =>
        (trace (_pyfngrep regex before base ignore_case)
         ++ trace (_pyfngrep regex after base ignore_case),
         outcome (_pyfngrep regex after base ignore_case))
    | Raise e => (trace (_pyfngrep regex before base ignore_case), Raise e)
    end.
Proof.
  rewrite _pyfngrep_app.
  destruct (_pyfngrep regex before base ignore_case) as [t [[]|e]];
    [|reflexivity].
  rewrite bind_ok. reflexivity.
Qed.

(** A path that names no file, because nothing or a directory is there,
    ends the run: the error of [open] is raised after the output of the
    paths before it, and the paths after it are never opened. *)
Theorem unreadable_path_aborts_run (before after : list string) (p : string)
    (t0 : list event) :
  _pyfngrep regex before base ignore_case = (t0, Ok tt) ->
  is_file p = false ->
  _pyfngrep regex (before ++ p :: after) base ignore_case
  = (t0, Raise (match fs_lookup p with
                | None => FileNotFoundError p
                | Some _ => IsADirectoryError p
                end)).
Proof.
  intros Hbefore Hp.
  rewrite _pyfngrep_app, Hbefore, bind_ok, _pyfngrep_cons.
  unfold scan_path, open_readlines. unfold is_file in Hp.
  destruct (fs_lookup p) as [[text|entries]|]; [discriminate|..];
    cbn; now rewrite app_nil_r.
Qed.

Lemma opened_app (t1 t2 : list event) :
  opened (t1 ++ t2) = opened t1 ++ opened t2.
Proof. unfold opened. apply flat_map_app. Qed.

Lemma scan_lines_open_nothing (rel_p : string) (lines : list string)
    (st : scope) :
  opened (trace (for_each (scan_line regex rel_p ignore_case) st lines)) = [].
Proof.
  revert st. induction lines as [|line lines IH]; intros st; [reflexivity|].
  cbn [for_each]. rewrite scan_line_track.
  destruct (track st line) as [st1|e]; [|reflexivity].
  destruct (re_search regex line ignore_case) as [found|e]; [|reflexivity].
  rewrite bind_ok. cbn [trace fst]. rewrite opened_app.
  fold (trace (for_each (scan_line regex rel_p ignore_case) st1 lines)).
  rewrite IH. now destruct found.
Qed.

Lemma trace_bind {A B} (m : M A) (k : A -> M B) :
  trace (bind m k)
  = trace m ++ match outcome m with
               | Ok a => trace (k a)
               | Raise _ => []
               end.
Proof.
  destruct m as [t [a|e]]; [now rewrite bind_ok|].
  cbn. now rewrite app_nil_r.
Qed.

Lemma outcome_bind {A B} (m : M A) (k : A -> M B) :
  outcome (bind m k)
  = match outcome m with
    | Ok a => outcome (k a)
    | Raise e => Raise e
    end.
Proof. destruct m as [t [a|e]]; [now rewrite bind_ok | reflexivity]. Qed.

Lemma scan_path_opened (p : string) :
  opened (trace (scan_path regex base ignore_case tt p))
  = if is_file p then [p] else [].
Proof.
  unfold is_file. destruct (fs_lookup p) as [[text|entries]|] eqn:Hp.
  - rewrite (scan_path_file _ _ _ _ Hp). cbn [trace fst opened flat_map app].
    fold (opened (trace (for_each
                           (scan_line regex
                              (Str.slice_from (String.length base) p)
                              ignore_case) scope0 (lines_of text)))).
    now rewrite scan_lines_open_nothing.
  - unfold scan_path, open_readlines. now rewrite Hp.
  - unfold scan_path, open_readlines. now rewrite Hp.
Qed.

Lemma scan_path_ok_is_file (p : string) (u : unit) :
  outcome (scan_path regex base ignore_case tt p) = Ok u -> is_file p = true.
Proof.
  unfold is_file, scan_path, open_readlines.
  destruct (fs_lookup p) as [[text|entries]|]; [reflexivity|discriminate..].
Qed.

(** A run opens the paths of its list in order, each once, and no other
    file: what it has opened when it ends is the list up to the path where
    an error stopped it, and the whole list when it ends without error. *)
Theorem run_opens_paths_in_order (paths : list string) :
  (exists k, opened (trace (_pyfngrep regex paths base ignore_case))
             = firstn k paths)
  /\ (outcome (_pyfngrep regex paths base ignore_case) = Ok tt ->
      opened (trace (_pyfngrep regex paths base ignore_case)) = paths).
Proof.
  induction paths as [|p paths [(k & IHk) IHok]].
  - split; [now exists 0 | reflexivity].
  - rewrite _pyfngrep_cons, trace_bind, outcome_bind, opened_app,
      scan_path_opened.
    destruct (outcome (scan_path regex base ignore_case tt p))
      as [u|e] eqn:Hout.
    + rewrite (scan_path_ok_is_file p u Hout). cbn [app]. split.
      * exists (S k). cbn [firstn]. now rewrite IHk.
      * intros Hok. now rewrite (IHok Hok).
    + cbn [opened flat_map]. rewrite app_nil_r. split; [|discriminate].
      destruct (is_file p); [now exists 1 | now exists 0].
Qed.

(** Given a path that does not exist, the program prints nothing and ends
    without any error: the path is no file, and [os.walk] finds nothing
    below it. *)
Theorem missing_path_is_silent (path : string) :
  fs_lookup path = None ->
  main regex path ignore_case = ([], Ok tt).
Proof.
  intros Hp. unfold main, pyfngrep, is_file. cbn [g_path]. rewrite Hp.
  rewrite get_paths_flat_map. unfold os_walk. rewrite Hp. reflexivity.
Qed.

End Paths.

(** ** Collected paths and the prefix removed from them *)

Lemma valid_name_head (d x : string) :
  valid_name d = true ->
  Str.startswith (d +++ x) "/" = false /\ d +++ x <> "".
Proof.
  intros H. apply valid_name_spec in H as [Hne Hs].
  destruct d as [|c d]; [congruence|]. cbn in Hs.
  apply orb_false_iff in Hs as [Hc _].
  unfold Str.startswith. cbn [String.append String.prefix].
  split; [|discriminate].
  destruct (ascii_dec "/" c) as [<-|_]; [discriminate | reflexivity].
Qed.

(** Below a well-formed directory a path is the prefix of the directory
    followed by a relative path that is not empty and does not start with
    the separator. *)
Lemma file_under_rel (top path name : string) (n : node) :
  file_under top n path name ->
  well_formed n = true ->
  exists rel,
    path = dir_prefix top +++ rel
    /\ Str.startswith rel "/" = false /\ rel <> "".
Proof.
  induction 1 as [top entries name text He
                 |top entries d sub path name He _ IH]; intros Hwf;
    apply well_formed_dir in Hwf as [_ Hwf]; rewrite Forall_forall in Hwf;
    destruct (Hwf _ He) as [Hv Hsub]; cbn [fst snd] in Hv, Hsub.
  - exists name. split; [now apply path_join_valid|].
    rewrite <- (append_nil_r name). now apply valid_name_head.
  - destruct (IH Hsub) as (rel & -> & _). rewrite (dir_prefix_join top d Hv).
    exists (d +++ "/" +++ rel). split; [now rewrite !append_assoc|].
    now apply valid_name_head.
Qed.

(** Every path [get_paths] collects below a directory starts with the
    directory as it was given, so the slice [p[len(base):]] of a directory
    scan removes exactly that: what is displayed is the path relative to
    the directory, after a [/] unless the directory was given with its
    final [/]. *)
Theorem collected_path_displayed_relative {os : FileSystem} (root : string)
    (entries : list (string * node)) (path : string) :
  fs_lookup root = Some (Dir entries) ->
  well_formed (Dir entries) = true ->
  In path (get_paths root) ->
  exists rel,
    rel <> "" /\ Str.startswith rel "/" = false
    /\ path = dir_prefix root +++ rel
    /\ Str.slice_from (String.length root) path
       = if Str.is_empty root || Str.endswith root "/"
         then rel else "/" +++ rel.
Proof.
  intros Hroot Hwf Hin. rewrite get_paths_flat_map in Hin.
  unfold os_walk in Hin. rewrite Hroot, collect_walk in Hin.
  apply listing_sound in Hin as (name & Hunder & _).
  destruct (file_under_rel _ _ _ _ Hunder Hwf) as (rel & -> & Hs & Hne).
  exists rel. repeat split; [exact Hne | exact Hs |].
  unfold dir_prefix.
  destruct (Str.is_empty root || Str.endswith root "/").
  - apply slice_from_append.
  - rewrite append_assoc. apply slice_from_append.
Qed.

(** The order of the result: the files of a directory itself first, in
    the order the directory lists them, then what each subdirectory gives,
    one subdirectory after the other. *)
Theorem get_paths_top_down {os : FileSystem} (root : string) (n : node) :
  fs_lookup root = Some n ->
  get_paths root = listing root n.
Proof.
  intros Hroot. rewrite get_paths_flat_map. unfold os_walk.
  rewrite Hroot. apply collect_walk.
Qed.

(** ** Names and lines *)

(** [fn_or_class_name] fails in one way only, with [IndexError] on a line
    of fewer than two tokens; on any other line it gives a name, and that
    name holds neither an opening parenthesis nor white space. *)
Theorem fn_or_class_name_result (s : string) :
  (length (Str.split s) < 2 /\ fn_or_class_name s = Raise IndexError)
  \/ (2 <= length (Str.split s)
      /\ exists name,
           fn_or_class_name s = Ok name
           /\ Str.has_char Str.LPAREN name = false
           /\ Str.all_chars (fun c => negb (Str.isspace c)) name = true).
Proof.
  destruct (Str.split s) as [|t0 [|t1 ts]] eqn:Hs.
  - left. split; [cbn; lia|]. apply fn_or_class_name_index_error.
    rewrite Hs. cbn. lia.
  - left. split; [cbn; lia|]. apply fn_or_class_name_index_error.
    rewrite Hs. cbn. lia.
  - right. split; [cbn; lia|].
    pose proof (split_tokens s) as Htok. rewrite Hs in Htok.
    inversion Htok as [|x l _ Htok']; subst.
    inversion Htok' as [|x l [_ Hns] _]; subst.
    destruct (fn_or_class_name_split s Hs) as (name & Hname & Hshape).
    exists name. split; [exact Hname|].
    destruct Hshape as [[Hno ->]|(rest & -> & Hno)]; split; auto.
    rewrite all_chars_append in Hns. now apply andb_prop in Hns.
Qed.

(** The lines that are scanned are the pieces [readlines] cuts the text
    into, in order and none lost, each without its final line feed and
    otherwise unchanged; no scanned line holds a line feed. *)
Theorem scanned_lines_of_text (text : string) :
  String.concat "" (Str.readlines text) = text
  /\ Forall2 (fun raw line =>
                Str.has_char Str.LF line = false
                /\ (raw = line \/ raw = line +++ Str.chr Str.LF))
             (Str.readlines text) (lines_of text).
Proof. split; [apply readlines_concat | apply lines_of_pieces]. Qed.

(** ** The further properties on the example files *)

Lemma every_match_printed_witness :
  exists labels,
    length labels
    = length (filter (fun nl => Str.contains (snd nl) "needle")
                (numbered 1 ["needle 0"; "def bar():"; "    needle 1"; "";
                             "needle 2"]))
    /\ trace (for_each (@scan_line Ref.re_literal "needle" "t.py" false)
                scope0 ["needle 0"; "def bar():"; "    needle 1"; "";
                        "needle 2"])
       = map (fun x => EvPrint (output_line "t.py" (fst (fst x)) (snd x)
                                  (snd (fst x))))
           (combine (filter (fun nl => Str.contains (snd nl) "needle")
                       (numbered 1 ["needle 0"; "def bar():";
                                    "    needle 1"; ""; "needle 2"]))
              labels).
Proof.
  apply (@every_match_printed Ref.re_literal "needle" "t.py" false
           (fun s => Str.contains s "needle")
           ["needle 0"; "def bar():"; "    needle 1"; ""; "needle 2"]
           scope0 {| curcls := None; curfn := None; lineno := 5 |}).
  - reflexivity.
  - vm_compute. reflexivity.
Defined.

Lemma scope_kept_inside_class_witness :
  truthy (Some "Foo") = true
  /\ forall s,
       In (EvPrint s)
          (trace (for_each (@scan_line Ref.re_literal "needle" "t.py" false)
                    {| curcls := Some "Foo"; curfn := Some "bar";
                       lineno := 3 |}
                    ["        x = needle"; ""; "def top():";
                     "    needle again"])) ->
       exists n line,
         In line ["        x = needle"; ""; "def top():"; "    needle again"]
         /\ s = output_line "t.py" n ("Foo" +++ "." +++ "bar") line.
Proof.
  split; [reflexivity|].
  refine (proj2 (@scope_kept_inside_class Ref.re_literal "needle" "t.py"
                   false
                   {| curcls := Some "Foo"; curfn := Some "bar"; lineno := 3 |}
                   ["        x = needle"; ""; "def top():";
                    "    needle again"]
                   _ (outcome (for_each
                                 (@scan_line Ref.re_literal "needle" "t.py"
                                    false)
                                 {| curcls := Some "Foo"; curfn := Some "bar";
                                    lineno := 3 |}
                                 ["        x = needle"; ""; "def top():";
                                  "    needle again"]))
                   _ _ _)).
  - reflexivity.
  - repeat constructor.
  - apply surjective_pairing.
Defined.

Lemma scope_kept_at_top_level_witness :
  truthy None = false
  /\ forall s,
       In (EvPrint s)
          (trace (for_each (@scan_line Ref.re_literal "needle" "t.py" false)
                    {| curcls := None; curfn := Some "outer"; lineno := 1 |}
                    ["    def inner():"; "        needle"])) ->
       exists n line,
         In line ["    def inner():"; "        needle"]
         /\ s = output_line "t.py" n "outer" line.
Proof.
  split; [reflexivity|].
  refine (proj2 (@scope_kept_at_top_level Ref.re_literal "needle" "t.py"
                   false
                   {| curcls := None; curfn := Some "outer"; lineno := 1 |}
                   ["    def inner():"; "        needle"]
                   _ (outcome (for_each
                                 (@scan_line Ref.re_literal "needle" "t.py"
                                    false)
                                 {| curcls := None; curfn := Some "outer";
                                    lineno := 1 |}
                                 ["    def inner():"; "        needle"]))
                   _ _ _)).
  - reflexivity.
  - repeat constructor; discriminate.
  - apply surjective_pairing.
Defined.

Lemma class_line_opens_class_witness :
  @scan_line Ref.re_literal "Bar" "t.py" false
    {| curcls := Some "Foo"; curfn := Some "m"; lineno := 7 |}
    "class Bar(Foo):"
  = ([EvPrint (output_line "t.py" 8 (scope_label (Some "Bar") None)
                 "class Bar(Foo):")],
     Ok {| curcls := Some "Bar"; curfn := None; lineno := 8 |}).
Proof.
  apply (@class_line_opens_class Ref.re_literal "Bar" "t.py" false
           (fun s => Str.contains s "Bar")
           {| curcls := Some "Foo"; curfn := Some "m"; lineno := 7 |}
           "class Bar(Foo):" "Bar"); reflexivity.
Defined.

Lemma def_line_sets_function_witness :
  @scan_line Ref.re_literal "run" "t.py" false
    {| curcls := Some "Foo"; curfn := None; lineno := 1 |}
    "    def run(self):"
  = ([EvPrint (output_line "t.py" 2 (scope_label (Some "Foo") (Some "run"))
                 "    def run(self):")],
     Ok {| curcls := Some "Foo"; curfn := Some "run"; lineno := 2 |}).
Proof.
  apply (@def_line_sets_function Ref.re_literal "run" "t.py" false
           (fun s => Str.contains s "run")
           {| curcls := Some "Foo"; curfn := None; lineno := 1 |}
           "    def run(self):" "run"); reflexivity.
Defined.

Lemma unreadable_path_aborts_run_witness :
  @_pyfngrep Ref.re_literal Ref.world "needle"
    (["a.py"] ++ "nothere.py" :: ["foo.py"]) "" false
  = ([EvOpen "a.py"], Raise (FileNotFoundError "nothere.py")).
Proof.
  apply (@unreadable_path_aborts_run Ref.re_literal Ref.world "needle" ""
           false ["a.py"] ["foo.py"] "nothere.py" [EvOpen "a.py"]).
  - vm_compute. reflexivity.
  - reflexivity.
Defined.

Lemma run_opens_paths_in_order_witness :
  opened (trace (@_pyfngrep Ref.re_literal Ref.world "needle"
                   ["a.py"; "foo.py"; "empty.py"] "" false))
  = ["a.py"; "foo.py"; "empty.py"].
Proof.
  apply (@run_opens_paths_in_order Ref.re_literal Ref.world "needle" ""
           false ["a.py"; "foo.py"; "empty.py"]).
  vm_compute. reflexivity.
Defined.

Lemma missing_path_is_silent_witness :
  @main Ref.re_literal Ref.world "needle" "nothere" false = ([], Ok tt).
Proof.
  apply (@missing_path_is_silent Ref.re_literal Ref.world "needle" false
           "nothere").
  reflexivity.
Defined.

Lemma collected_path_displayed_relative_witness :
  exists rel,
    rel <> "" /\ Str.startswith rel "/" = false
    /\ "src/pkg/d.py" = dir_prefix "src" +++ rel
    /\ Str.slice_from (String.length "src") "src/pkg/d.py"
       = if Str.is_empty "src" || Str.endswith "src" "/"
         then rel else "/" +++ rel.
Proof.
  apply (@collected_path_displayed_relative Ref.world "src" Ref.src_tree
           "src/pkg/d.py").
  - reflexivity.
  - reflexivity.
  - vm_compute. do 2 right. left. reflexivity.
Defined.

Lemma get_paths_top_down_witness :
  @get_paths Ref.world "src" = listing "src" (Dir Ref.src_tree).
Proof.
  apply (@get_paths_top_down Ref.world "src" (Dir Ref.src_tree)).
  reflexivity.
Defined.

Lemma main_single_file_witness :
  @main Ref.re_literal Ref.world "needle" "/x/y/z.py" false
  = @_pyfngrep Ref.re_literal Ref.world "needle" ["/x/y/z.py"] "" false
  /\ forall s,
       In (EvPrint s)
          (trace (@main Ref.re_literal Ref.world "needle" "/x/y/z.py" false)) ->
       exists rest, s = "/x/y/z.py" +++ ":" +++ rest.
Proof.
  apply (@main_single_file Ref.re_literal Ref.world "needle" false
           "/x/y/z.py").
  reflexivity.
Defined.
